(** * marithus/code-challenge: the sum functions, the token catalogue,
      the wallet balance list and the currency swap form

    A shallow embedding of the repository's JavaScript and TypeScript:

    - [src/problem1/index.js]: [sum_to_n_a], [sum_to_n_b], [sum_to_n_c];
    - the token utilities: [processTokenData];
    - the wallet page: [getPriority], [sortedBalances];
    - the swap form [App]: its state, its event handlers and the effect
      that recomputes the quote.

    ** Numbers

    A JavaScript number is modelled by [JS.number]: [NaN], the two
    infinities, and the finite values as exact rationals.  Arithmetic on
    finite values is exact: the rounding of binary64, overflow to
    [Infinity] and the sign of zero are outside this model, and so is the
    depth of the call stack.  Comparisons, the treatment of [NaN], the
    parsing of numeric text and [toFixed] follow ECMA-262.

    ** Strings

    Strings are sequences of 8-bit characters; the white space recognised
    by the numeric parsers is the ASCII part of ECMAScript's
    [StrWhiteSpaceChar]. *)

From Stdlib Require Import ZArith QArith Qround Qabs Bool List String Ascii.
From Stdlib Require Import Lia Lqa.
From Stdlib Require Import DecimalString.
From Stdlib Require Import Permutation Sorted OrderedTypeEx.
From Equations Require Import Equations.
Import ListNotations.

Local Open Scope Z_scope.

(** * JavaScript numbers *)

Module JS.

Inductive number : Type :=
| NaN
| Infinity (negative : bool)
| Finite (q : Q).

Definition of_Z (z : Z) : number := Finite (inject_Z z).

(** The outcome of comparing two numbers; [None] when one of them is
    [NaN] (every relational operator is then false). *)
Definition compare (x y : number) : option comparison :=
  match x, y with
  | NaN, _ | _, NaN => None
  | Infinity s1, Infinity s2 =>
      Some (match s1, s2 with
            | true, false => Lt
            | false, true => Gt
            | _, _ => Eq
            end)
  | Infinity s, Finite _ => Some (if s then Lt else Gt)
  | Finite _, Infinity s => Some (if s then Gt else Lt)
  | Finite p, Finite q => Some (Qcompare p q)
  end.

(** [x < y], [x <= y], [x > y], [x >= y], [x === y] *)
Definition lt (x y : number) : bool :=
  match compare x y with Some Lt => true | _ => false end.
Definition le (x y : number) : bool :=
  match compare x y with Some Lt | Some Eq => true | _ => false end.
Definition gt (x y : number) : bool := lt y x.
Definition ge (x y : number) : bool := le y x.
Definition strict_equals (x y : number) : bool :=
  match compare x y with Some Eq => true | _ => false end.

Definition isNaN (x : number) : bool :=
  match x with NaN => true | _ => false end.


(** ToBoolean on a number: [0] and [NaN] are falsy. *)
Definition truthy (x : number) : bool :=
  match x with
  | NaN => false
  | Infinity _ => true
  | Finite q => negb (Z.eqb (Qnum q) 0)
  end.

Definition is_neg (q : Q) : bool := Z.ltb (Qnum q) 0.
Definition is_zero (q : Q) : bool := Z.eqb (Qnum q) 0.


Definition neg (x : number) : number :=
  match x with
  | NaN => NaN
  | Infinity s => Infinity (negb s)
  | Finite q => Finite (- q)
  end.

Definition mul (x y : number) : number :=
  match x, y with
  | NaN, _ | _, NaN => NaN
  | Infinity s1, Infinity s2 => Infinity (xorb s1 s2)
  | Infinity s, Finite q | Finite q, Infinity s =>
      if is_zero q then NaN else Infinity (xorb s (is_neg q))
  | Finite p, Finite q => Finite (p * q)
  end.

Definition div (x y : number) : number :=
  match x, y with
  | NaN, _ | _, NaN => NaN
  | Infinity _, Infinity _ => NaN
  | Infinity s, Finite q => Infinity (xorb s (is_neg q))
  | Finite _, Infinity _ => Finite 0
  | Finite p, Finite q =>
      if is_zero q
      then (if is_zero p then NaN else Infinity (is_neg p))
      else Finite (p / q)
  end.

(** Numbers that denote the same value: what [===] decides. *)
Definition same_value (x y : number) : Prop := strict_equals x y = true.

(** ** Numeric text

    [parseFloat] and [Number] (applied to a string) read the grammar
    [StrDecimalLiteral] of ECMA-262; [Number] also reads the binary, octal
    and hexadecimal integer literals, and wants the whole text to match. *)

Local Open Scope string_scope.

Definition isWhiteSpace (c : ascii) : bool :=
  let n := N_of_ascii c in
  (N.leb 9 n && N.leb n 13) || N.eqb n 32.

Fixpoint trimStart (s : string) : string :=
  match s with
  | String c r => if isWhiteSpace c then trimStart r else s
  | EmptyString => s
  end.

Fixpoint trimEnd (s : string) : string :=
  match s with
  | EmptyString => EmptyString
  | String c r =>
      match trimEnd r with
      | EmptyString =>
          if isWhiteSpace c then EmptyString else String c EmptyString
      | r' => String c r'
      end
  end.

Definition trim (s : string) : string := trimEnd (trimStart s).

(** The value of [c] as a digit in the given radix. *)
Definition digit (radix : N) (c : ascii) : option N :=
  let n := N_of_ascii c in
  let v :=
    if N.leb 48 n && N.leb n 57 then Some (n - 48)%N
    else if N.leb 97 n && N.leb n 122 then Some (n - 87)%N
    else if N.leb 65 n && N.leb n 90 then Some (n - 55)%N
    else None in
  match v with
  | Some d => if N.ltb d radix then Some d else None
  | None => None
  end.

(** Reads the longest run of digits at the head of [s], continuing the
    value [acc] and the count [count]; returns the text that follows. *)
Fixpoint digits (radix : N) (s : string) (acc : N) (count : nat)
  : N * nat * string :=
  match s with
  | String c r =>
      match digit radix c with
      | Some d => digits radix r (acc * radix + d)%N (S count)
      | None => (acc, count, s)
      end
  | EmptyString => (acc, count, s)
  end.

Fixpoint strip_prefix (p s : string) : option string :=
  match p, s with
  | EmptyString, _ => Some s
  | String a p', String b s' =>
      if Ascii.eqb a b then strip_prefix p' s' else None
  | String _ _, EmptyString => None
  end.

(** [ExponentPart], when one is there in full; otherwise nothing is
    consumed and the exponent is 0. *)
Definition exponentPart (s : string) : Z * string :=
  match s with
  | String c r =>
      if Ascii.eqb c "e" || Ascii.eqb c "E" then
        let '(negative, r1) :=
          match r with
          | String "+" r' => (false, r')
          | String "-" r' => (true, r')
          | _ => (false, r)
          end in
        match digits 10 r1 0 0 with
        | (_, O, _) => (0, s)
        | (e, S _, r2) =>
            (if negative then - Z.of_N e else Z.of_N e, r2)
        end
      else (0, s)
  | EmptyString => (0, s)
  end.

(** The number [m * 10^e]. *)
Definition decimalValue (m : N) (e : Z) : number :=
  Finite (Qred (inject_Z (Z.of_N m) * Qpower (inject_Z 10) e)).

(** The longest prefix of [s] that is a [StrUnsignedDecimalLiteral], with
    its value and the rest of the text. *)
Definition strUnsignedDecimalLiteral (s : string) : option (number * string) :=
  match strip_prefix "Infinity" s with
  | Some r => Some (Infinity false, r)
  | None =>
      let '(ip, ni, r1) := digits 10 s 0 0 in
      match r1 with
      | String "." r2 =>
          let '(m, nf, r3) := digits 10 r2 ip 0 in
          match ni, nf with
          | O, O => None
          | _, _ =>
              let '(e, r4) := exponentPart r3 in
              Some (decimalValue m (e - Z.of_nat nf), r4)
          end
      | _ =>
          match ni with
          | O => None
          | S _ =>
              let '(e, r4) := exponentPart r1 in
              Some (decimalValue ip e, r4)
          end
      end
  end.

Definition strDecimalLiteral (s : string) : option (number * string) :=
  match s with
  | String "+" r => strUnsignedDecimalLiteral r
  | String "-" r =>
      match strUnsignedDecimalLiteral r with
      | Some (v, rest) => Some (neg v, rest)
      | None => None
      end
  | _ => strUnsignedDecimalLiteral s
  end.

Definition parseFloat (s : string) : number :=
  match strDecimalLiteral (trimStart s) with
  | Some (v, _) => v
  | None => NaN
  end.

(** [0b...], [0o...], [0x...]: the whole of [s], at least one digit. *)
Definition nonDecimalIntegerLiteral (s : string) : option number :=
  match s with
  | String "0" (String c r) =>
      let radix :=
        if Ascii.eqb c "b" || Ascii.eqb c "B" then Some 2%N
        else if Ascii.eqb c "o" || Ascii.eqb c "O" then Some 8%N
        else if Ascii.eqb c "x" || Ascii.eqb c "X" then Some 16%N
        else None in
      match radix with
      | Some rd =>
          match digits rd r 0 0 with
          | (v, S _, EmptyString) => Some (of_Z (Z.of_N v))
          | _ => None
          end
      | None => None
      end
  | _ => None
  end.

(** [Number(s)] for a string [s] (StringToNumber). *)
Definition Number (s : string) : number :=
  match trim s with
  | EmptyString => of_Z 0
  | t =>
      match nonDecimalIntegerLiteral t with
      | Some v => v
      | None =>
          match strDecimalLiteral t with
          | Some (v, EmptyString) => v
          | _ => NaN
          end
      end
  end.

(** ToBoolean on a string: only the empty string is falsy. *)
Definition nonempty (s : string) : bool := negb (String.eqb s "").

(** ** [Number.prototype.toFixed] *)

Fixpoint zeros (n : nat) : string :=
  match n with
  | O => ""
  | S k => String "0" (zeros k)
  end.

Definition decimal_digits (n : N) : string :=
  NilZero.string_of_uint (N.to_uint n).

(** The integer [n] for which [n - x] is as close to zero as possible,
    the larger one when two are as close; [x] is not negative. *)
Definition nearest_integer (x : Q) : Z := Qfloor (x + (1 # 2)).

Section ToFixed.

(** [Number::toString], which [toFixed] falls back on from [10^21] on.  It
    prints the shortest digits that identify a binary64 value, and is not
    interpreted in this model. *)
Variable Number_toString : number -> string.

Definition toFixed (fractionDigits : nat) (x : number) : string :=
  match x with
  | NaN => "NaN"
  | Infinity negative => if negative then "-Infinity" else "Infinity"
  | Finite q =>
      if Qle_bool (inject_Z (10 ^ 21)) (Qabs q) then Number_toString x
      else
        let s := if is_neg q then "-" else "" in
        let f := fractionDigits in
        let n := nearest_integer (Qabs q * inject_Z (10 ^ Z.of_nat f)) in
        let m := decimal_digits (Z.to_N n) in
        let m :=
          match f with
          | O => m
          | S _ =>
              let m :=
                if Nat.leb (String.length m) f
                then zeros (f + 1 - String.length m) ++ m
                else m in
              let k := String.length m in
              substring 0 (k - f) m ++ "." ++ substring (k - f) f m
          end in
        s ++ m
  end.

End ToFixed.

(** ** [Array.prototype.sort]

    With a consistent comparison function the result of [sort] is fixed by
    the language: the elements in ascending order of [comparefn], those
    that compare equal in their original order.  Insertion from the right
    computes it. *)

Section Sort.
Context {A : Type}.
Variable comparefn : A -> A -> Z.

Fixpoint insert (x : A) (l : list A) : list A :=
  match l with
  | [] => [x]
  | y :: l' =>
      if Z.leb (comparefn x y) 0 then x :: y :: l' else y :: insert x l'
  end.

Fixpoint sort (l : list A) : list A :=
  match l with
  | [] => []
  | x :: l' => insert x (sort l')
  end.

(** [a] may stand before [b]. *)
Definition in_order (a b : A) : Prop := comparefn a b <= 0.

(** [a] and [b] tie: each may stand before the other. *)
Definition ties (a b : A) : bool :=
  Z.leb (comparefn a b) 0 && Z.leb (comparefn b a) 0.

End Sort.

End JS.

(** * Problem 1: three ways to sum to n *)

Module Problem1.








End Problem1.

(** * The token catalogue: [processTokenData] *)

Module Utils.
Local Open Scope string_scope.

(** [interface Token] *)
Record Token : Type := {
  currency : string;
  price : JS.number;
  icon : string }.

(** [interface RawTokenData] *)
Module Raw.
Record RawTokenData : Type := {
  currency : string;
  price : JS.number }.
End Raw.

(** A [Map<string, Token>]: the entries in the order their keys were
    first set, which is the order [values()] gives them in, and the order
    [sort] keeps among currencies that tie. *)
Definition TokenMap : Type := list (string * Token).

(** [tokenMap.set(key, value)]: the value of an existing key is replaced
    where it stands, a new key is added at the end. *)
Fixpoint map_set (m : TokenMap) (key : string) (value : Token) : TokenMap :=
  match m with
  | [] => [(key, value)]
  | (k, v) :: m' =>
      if String.eqb k key then (key, value) :: m'
      else (k, v) :: map_set m' key value
  end.

(** [Array.from(tokenMap.values())] *)
Definition map_values (m : TokenMap) : list Token := map snd m.

Definition icon_url (currency : string) : string :=
  "https://raw.githubusercontent.com/Switcheo/token-icons/main/tokens/"
  ++ currency ++ ".svg".

(** [item.price && item.price > 0] *)
Definition valid_price (item : Raw.RawTokenData) : bool :=
  JS.truthy (Raw.price item) && JS.gt (Raw.price item) (JS.of_Z 0).

(** The token made from a record. *)
Definition token_of (item : Raw.RawTokenData) : Token :=
  {| currency := Raw.currency item;
     price := Raw.price item;
     icon := icon_url (Raw.currency item) |}.

(** The body of [data.forEach(item => ...)], on the map built so far. *)
Definition add_item (tokenMap : TokenMap) (item : Raw.RawTokenData) : TokenMap :=
  if valid_price item then map_set tokenMap (Raw.currency item) (token_of item)
  else tokenMap.

(** [tokenMap.get(key)] *)
Fixpoint map_get (m : TokenMap) (key : string) : option Token :=
  match m with
  | [] => None
  | (k, v) :: m' => if String.eqb k key then Some v else map_get m' key
  end.

(** The keys of the map are distinct, and every token is stored under its
    own currency. *)
Definition well_keyed (m : TokenMap) : Prop :=
  NoDup (map fst m) /\ Forall (fun entry => currency (snd entry) = fst entry) m.

(** The records of [data] for the currency [c] that have a valid price,
    and the tokens of a list for the currency [c]. *)
Definition records_of (c : string) (data : list Raw.RawTokenData)
  : list Raw.RawTokenData :=
  filter (fun item => valid_price item && String.eqb (Raw.currency item) c) data.

Definition tokens_of (c : string) (l : list Token) : list Token :=
  filter (fun t => String.eqb (currency t) c) l.

Section Collation.

(** [a.localeCompare(b)]: the collation of the platform, negative, zero or
    positive. *)
Variable localeCompare : string -> string -> Z.

Definition by_currency (a b : Token) : Z :=
  localeCompare (currency a) (currency b).

Definition processTokenData (data : list Raw.RawTokenData) : list Token :=
  let tokenMap := fold_left add_item data [] in
  JS.sort by_currency (map_values tokenMap).

End Collation.

(** The comparison of two strings by the codes of their characters: the
    collation under which the examples are run. *)
Definition ordinal_compare (a b : string) : Z :=
  match String.compare a b with
  | Lt => -1
  | Eq => 0
  | Gt => 1
  end.

(** The records of the ordering example of the specification. *)
Definition example_records : list Raw.RawTokenData :=
  [ {| Raw.currency := "BTC"; Raw.price := JS.of_Z 100 |};
    {| Raw.currency := "ETH"; Raw.price := JS.of_Z 50 |};
    {| Raw.currency := "ETH"; Raw.price := JS.of_Z 60 |} ].

End Utils.

(** * The wallet page: [getPriority] and [sortedBalances] *)

Module Wallet.
Local Open Scope string_scope.

(** [interface WalletBalance] *)
Record WalletBalance : Type := {
  currency : string;
  amount : JS.number;
  blockchain : string }.

(** The priorities are integers, and so are their differences: they are
    carried as [Z]. *)
Definition getPriority (blockchain : string) : Z :=
  if String.eqb blockchain "Osmosis" then 100
  else if String.eqb blockchain "Ethereum" then 50
  else if String.eqb blockchain "Arbitrum" then 30
  else if String.eqb blockchain "Zilliqa" then 20
  else if String.eqb blockchain "Neo" then 20
  else -99.

(** The predicate given to [balances.filter]. *)
Definition supported_and_positive (balance : WalletBalance) : bool :=
  let balancePriority := getPriority (blockchain balance) in
  Z.gtb balancePriority (-99) && JS.gt (amount balance) (JS.of_Z 0).

(** The comparison given to [.sort]. *)
Definition by_priority (lhs rhs : WalletBalance) : Z :=
  let leftPriority := getPriority (blockchain lhs) in
  let rightPriority := getPriority (blockchain rhs) in
  rightPriority - leftPriority.

Definition sortedBalances (balances : list WalletBalance) : list WalletBalance :=
  JS.sort by_priority (filter supported_and_positive balances).

End Wallet.

(** * The swap form: [App] *)

Module App.
Import Utils.
Local Open Scope string_scope.

(** The state held by the [useState] hooks of [App], and the number of
    [setTimeout] callbacks that are still to run. *)
Record State : Type := {
  tokens : list Token;
  fromToken : option Token;
  toToken : option Token;
  fromAmount : string;
  toAmount : string;
  isFromModalOpen : bool;
  isToModalOpen : bool;
  searchTerm : string;
  error : string;
  isLoading : bool;
  isSwapping : bool;
  timers : nat }.

Definition initial : State :=
  {| tokens := []; fromToken := None; toToken := None;
     fromAmount := ""; toAmount := "";
     isFromModalOpen := false; isToModalOpen := false; searchTerm := "";
     error := ""; isLoading := true; isSwapping := false; timers := O |}.

Definition setTokens (v : list Token) (s : State) : State :=
  {| tokens := v; fromToken := fromToken s; toToken := toToken s;
     fromAmount := fromAmount s; toAmount := toAmount s;
     isFromModalOpen := isFromModalOpen s; isToModalOpen := isToModalOpen s;
     searchTerm := searchTerm s; error := error s; isLoading := isLoading s;
     isSwapping := isSwapping s; timers := timers s |}.

Definition setFromToken (v : option Token) (s : State) : State :=
  {| tokens := tokens s; fromToken := v; toToken := toToken s;
     fromAmount := fromAmount s; toAmount := toAmount s;
     isFromModalOpen := isFromModalOpen s; isToModalOpen := isToModalOpen s;
     searchTerm := searchTerm s; error := error s; isLoading := isLoading s;
     isSwapping := isSwapping s; timers := timers s |}.

Definition setToToken (v : option Token) (s : State) : State :=
  {| tokens := tokens s; fromToken := fromToken s; toToken := v;
     fromAmount := fromAmount s; toAmount := toAmount s;
     isFromModalOpen := isFromModalOpen s; isToModalOpen := isToModalOpen s;
     searchTerm := searchTerm s; error := error s; isLoading := isLoading s;
     isSwapping := isSwapping s; timers := timers s |}.

Definition setFromAmount (v : string) (s : State) : State :=
  {| tokens := tokens s; fromToken := fromToken s; toToken := toToken s;
     fromAmount := v; toAmount := toAmount s;
     isFromModalOpen := isFromModalOpen s; isToModalOpen := isToModalOpen s;
     searchTerm := searchTerm s; error := error s; isLoading := isLoading s;
     isSwapping := isSwapping s; timers := timers s |}.

Definition setToAmount (v : string) (s : State) : State :=
  {| tokens := tokens s; fromToken := fromToken s; toToken := toToken s;
     fromAmount := fromAmount s; toAmount := v;
     isFromModalOpen := isFromModalOpen s; isToModalOpen := isToModalOpen s;
     searchTerm := searchTerm s; error := error s; isLoading := isLoading s;
     isSwapping := isSwapping s; timers := timers s |}.

Definition setIsFromModalOpen (v : bool) (s : State) : State :=
  {| tokens := tokens s; fromToken := fromToken s; toToken := toToken s;
     fromAmount := fromAmount s; toAmount := toAmount s;
     isFromModalOpen := v; isToModalOpen := isToModalOpen s;
     searchTerm := searchTerm s; error := error s; isLoading := isLoading s;
     isSwapping := isSwapping s; timers := timers s |}.

Definition setIsToModalOpen (v : bool) (s : State) : State :=
  {| tokens := tokens s; fromToken := fromToken s; toToken := toToken s;
     fromAmount := fromAmount s; toAmount := toAmount s;
     isFromModalOpen := isFromModalOpen s; isToModalOpen := v;
     searchTerm := searchTerm s; error := error s; isLoading := isLoading s;
     isSwapping := isSwapping s; timers := timers s |}.

Definition setSearchTerm (v : string) (s : State) : State :=
  {| tokens := tokens s; fromToken := fromToken s; toToken := toToken s;
     fromAmount := fromAmount s; toAmount := toAmount s;
     isFromModalOpen := isFromModalOpen s; isToModalOpen := isToModalOpen s;
     searchTerm := v; error := error s; isLoading := isLoading s;
     isSwapping := isSwapping s; timers := timers s |}.

Definition setError (v : string) (s : State) : State :=
  {| tokens := tokens s; fromToken := fromToken s; toToken := toToken s;
     fromAmount := fromAmount s; toAmount := toAmount s;
     isFromModalOpen := isFromModalOpen s; isToModalOpen := isToModalOpen s;
     searchTerm := searchTerm s; error := v; isLoading := isLoading s;
     isSwapping := isSwapping s; timers := timers s |}.

Definition setIsLoading (v : bool) (s : State) : State :=
  {| tokens := tokens s; fromToken := fromToken s; toToken := toToken s;
     fromAmount := fromAmount s; toAmount := toAmount s;
     isFromModalOpen := isFromModalOpen s; isToModalOpen := isToModalOpen s;
     searchTerm := searchTerm s; error := error s; isLoading := v;
     isSwapping := isSwapping s; timers := timers s |}.

Definition setIsSwapping (v : bool) (s : State) : State :=
  {| tokens := tokens s; fromToken := fromToken s; toToken := toToken s;
     fromAmount := fromAmount s; toAmount := toAmount s;
     isFromModalOpen := isFromModalOpen s; isToModalOpen := isToModalOpen s;
     searchTerm := searchTerm s; error := error s; isLoading := isLoading s;
     isSwapping := v; timers := timers s |}.

Definition setTimers (v : nat) (s : State) : State :=
  {| tokens := tokens s; fromToken := fromToken s; toToken := toToken s;
     fromAmount := fromAmount s; toAmount := toAmount s;
     isFromModalOpen := isFromModalOpen s; isToModalOpen := isToModalOpen s;
     searchTerm := searchTerm s; error := error s; isLoading := isLoading s;
     isSwapping := isSwapping s; timers := v |}.

(** [const MOCK_BALANCE = 10] *)
Definition MOCK_BALANCE : JS.number := JS.of_Z 10.

(** [`Insufficient ${fromToken.currency} balance`] *)
Definition insufficient (t : Token) : string :=
  "Insufficient " ++ currency t ++ " balance".

Definition fetch_failed : string :=
  "Failed to load token prices. Please refresh the page to try again.".

(** ** The handlers

    Each handler is the state it leaves once its [set...] calls are
    applied; the values it reads are those of the render it was made in,
    the state [s]. *)

Definition handleFromAmountChange (value : string) (s : State) : State :=
  if String.eqb value ""
     || (JS.ge (JS.Number value) (JS.of_Z 0)
         && negb (JS.isNaN (JS.Number value)))
  then setFromAmount value s
  else s.

Definition handleSelectFromToken (token : Token) (s : State) : State :=
  let s1 :=
    match toToken s with
    | Some t =>
        if String.eqb (currency t) (currency token)
        then setToToken (fromToken s) s
        else s
    | None => s
    end in
  setSearchTerm "" (setIsFromModalOpen false (setFromToken (Some token) s1)).

Definition handleSelectToToken (token : Token) (s : State) : State :=
  let s1 :=
    match fromToken s with
    | Some f =>
        if String.eqb (currency f) (currency token)
        then setFromToken (toToken s) s
        else s
    | None => s
    end in
  setSearchTerm "" (setIsToModalOpen false (setToToken (Some token) s1)).

Definition handleSwapTokens (s : State) : State :=
  if isSwapping s then s
  else
    setFromAmount (toAmount s)
      (setToToken (fromToken s) (setFromToken (toToken s) s)).

(** [handleSwapClick]: sets the flag and starts the two-second timer. *)
Definition handleSwapClick (s : State) : State :=
  setTimers (S (timers s)) (setIsSwapping true s).

(** The callback given to [setTimeout]. *)
Definition swap_completed (s : State) : State :=
  setIsSwapping false (setToAmount "" (setFromAmount "" s)).

(** [isButtonDisabled]: the [disabled] attribute of the swap button. *)
Definition isButtonDisabled (s : State) : bool :=
  negb (JS.nonempty (fromAmount s))
  || JS.le (JS.parseFloat (fromAmount s)) (JS.of_Z 0)
  || JS.nonempty (error s)
  || isSwapping s.

Section Platform.

Variable localeCompare : string -> string -> Z.
Variable Number_toString : JS.number -> string.

(** ** The effect that recomputes the quote

    Its body, for a balance [balance] ([MOCK_BALANCE] in [App]). *)
Definition recompute (balance : JS.number) (s : State) : State :=
  let fromAmountNum := JS.parseFloat (fromAmount s) in
  let s := setError "" s in
  let s :=
    match fromToken s with
    | Some f =>
        if JS.gt fromAmountNum balance then setError (insufficient f) s else s
    | None => s
    end in
  match fromToken s, toToken s with
  | Some f, Some t =>
      if JS.gt fromAmountNum (JS.of_Z 0)
         && JS.truthy (price f) && JS.truthy (price t)
      then
        let exchangeRate := JS.div (price f) (price t) in
        let calculatedToAmount := JS.mul fromAmountNum exchangeRate in
        setToAmount (JS.toFixed Number_toString 6 calculatedToAmount) s
      else setToAmount "" s
  | _, _ => setToAmount "" s
  end.

(** The dependencies of the effect, [[fromAmount, fromToken, toToken,
    MOCK_BALANCE]], are compared between two renders.  Token objects are
    compared by reference in React; the catalogue holds one object for a
    currency, and two tokens are taken for the same object when their
    fields are the same. *)
Definition same_number (x y : JS.number) : bool :=
  match x, y with
  | JS.NaN, JS.NaN => true
  | JS.Infinity a, JS.Infinity b => Bool.eqb a b
  | JS.Finite p, JS.Finite q => Qeq_bool p q
  | _, _ => false
  end.

Definition same_token (a b : option Token) : bool :=
  match a, b with
  | None, None => true
  | Some x, Some y =>
      String.eqb (currency x) (currency y)
      && same_number (price x) (price y)
      && String.eqb (icon x) (icon y)
  | _, _ => false
  end.

Definition same_dependencies (before after : State) : bool :=
  String.eqb (fromAmount before) (fromAmount after)
  && same_token (fromToken before) (fromToken after)
  && same_token (toToken before) (toToken after).

(** The state after the render that follows an update from [before] to
    [after]: the effect runs when one of its dependencies has changed. *)
Definition render (before after : State) : State :=
  if same_dependencies before after then after
  else recompute MOCK_BALANCE after.

(** ** Loading the prices *)

Definition find_currency (name : string) (l : list Token) : option Token :=
  find (fun token => String.eqb (currency token) name) l.

(** [fetchPrices], when the request gives the records [data]. *)
Definition prices_loaded (data : list Raw.RawTokenData) (s : State) : State :=
  let processedTokens := processTokenData localeCompare data in
  let defaultFromToken := find_currency "ETH" processedTokens in
  let defaultToToken := find_currency "USDC" processedTokens in
  setIsLoading false
    (setToToken defaultToToken
       (setFromToken defaultFromToken (setTokens processedTokens s))).

(** [fetchPrices], when the request fails. *)
Definition prices_failed (s : State) : State :=
  setIsLoading false (setError fetch_failed s).

(** ** Events *)

Inductive Event : Type :=
| PricesLoaded (data : list Raw.RawTokenData)
| PricesFailed
| ChangeFromAmount (text : string)
| SelectFromToken (t : Token)
| SelectToToken (t : Token)
| FlipSides
| TriggerSwap
| SwapTimeout
| OpenFromModal
| OpenToModal
| CloseFromModal
| CloseToModal
| Search (term : string).

(** What an event does to the state, before the next render.  The swap
    button carries [disabled={isButtonDisabled}]: a click on it reaches
    [handleSwapClick] only when the button is enabled.  The timer callback
    runs only when a timer is pending.  The other handlers are taken as
    they are, for every argument: the page narrows what reaches them (the
    amount field and the selector buttons are disabled during a swap, a
    selector leaves out the currency of the opposite side), and nothing
    below relies on that. *)
Definition handle (e : Event) (s : State) : State :=
  match e with
  | PricesLoaded data => prices_loaded data s
  | PricesFailed => prices_failed s
  | ChangeFromAmount text => handleFromAmountChange text s
  | SelectFromToken t => handleSelectFromToken t s
  | SelectToToken t => handleSelectToToken t s
  | FlipSides => handleSwapTokens s
  | TriggerSwap => if isButtonDisabled s then s else handleSwapClick s
  | SwapTimeout =>
      match timers s with
      | O => s
      | S n => swap_completed (setTimers n s)
      end
  | OpenFromModal => setIsFromModalOpen true s
  | OpenToModal => setIsToModalOpen true s
  | CloseFromModal => setIsFromModalOpen false s
  | CloseToModal => setIsToModalOpen false s
  | Search term => setSearchTerm term s
  end.

Definition step (s : State) (e : Event) : State := render s (handle e s).

Definition run (s : State) (events : list Event) : State :=
  fold_left step events s.

End Platform.

(** The two selected tokens, when both are there, differ by currency. *)
Definition distinct_tokens (s : State) : Prop :=
  forall f t, fromToken s = Some f -> toToken s = Some t ->
              currency f <> currency t.

(** ** States and records for the examples *)

Definition ETH : Token :=
  {| currency := "ETH"; price := JS.of_Z 2000; icon := icon_url "ETH" |}.

Definition USDC : Token :=
  {| currency := "USDC"; price := JS.of_Z 1; icon := icon_url "USDC" |}.

Definition price_feed : list Raw.RawTokenData :=
  [ {| Raw.currency := "USDC"; Raw.price := JS.of_Z 1 |};
    {| Raw.currency := "ETH"; Raw.price := JS.of_Z 2000 |} ].

(** ETH to USDC, with the text [amount] entered. *)
Definition eth_to_usdc (amount : string) : State :=
  setFromAmount amount
    (setIsLoading false
       (setToToken (Some USDC)
          (setFromToken (Some ETH) (setTokens [ETH; USDC] initial)))).

(** The examples stay below [10^21], where [toFixed] does not reach
    [Number::toString]; they are run with this stand-in for it. *)
Definition toString_stand_in (x : JS.number) : string := "".



End App.

(** * A catalogue read as a feed *)

Module Feed.
Import Utils.

(** The record a token stands for: what a feed would carry for it. *)
Definition record_of (t : Token) : Raw.RawTokenData :=
  {| Raw.currency := currency t; Raw.price := price t |}.

(** The entry of the map for a token. *)
Definition entry (t : Token) : string * Token := (currency t, t).

End Feed.

(** * The token selector: [TokenSelector], and the lists [App] gives it *)

Module TokenSelector.
Import Utils.
Local Open Scope string_scope.

(** [s.includes(sub)]: [sub] occurs in [s]. *)
Fixpoint includes (s sub : string) : bool :=
  match JS.strip_prefix sub s with
  | Some _ => true
  | None =>
      match s with
      | String _ r => includes r sub
      | EmptyString => false
      end
  end.

Section Search.

(** [String.prototype.toLowerCase], the case mapping of the platform. *)
Variable toLowerCase : string -> string.

(** The predicate given to [tokens.filter]. *)
Definition matches (searchTerm : string) (token : Token) : bool :=
  includes (toLowerCase (currency token)) (toLowerCase searchTerm).

Definition filteredTokens (tokens : list Token) (searchTerm : string)
  : list Token :=
  filter (matches searchTerm) tokens.

(** What the component shows: nothing when the modal is closed, the
    message [No tokens found.] when no token matches, and otherwise one
    button for each token that matches, in the order of [tokens]. *)
Inductive View : Type :=
| Closed
| NoTokensFound
| Listing (buttons : list Token).

Definition view (isOpen : bool) (tokens : list Token) (searchTerm : string)
  : View :=
  if isOpen then
    match filteredTokens tokens searchTerm with
    | [] => NoTokensFound
    | found => Listing found
    end
  else Closed.

End Search.

(** The tokens [App] gives to the selector of the from-side,
    [tokens.filter(t => !toToken || t.currency !== toToken.currency)], and
    to the selector of the to-side. *)
Definition other_currency (opposite : option Token) (t : Token) : bool :=
  match opposite with
  | None => true
  | Some o => negb (String.eqb (currency t) (currency o))
  end.

Definition from_selector_tokens (s : App.State) : list Token :=
  filter (other_currency (App.toToken s)) (App.tokens s).

Definition to_selector_tokens (s : App.State) : list Token :=
  filter (other_currency (App.fromToken s)) (App.tokens s).

(** The case mapping of the letters [A] to [Z], under which the examples
    are run. *)
Definition lower_letter (c : ascii) : ascii :=
  let n := N_of_ascii c in
  if N.leb 65 n && N.leb n 90 then ascii_of_N (n + 32) else c.

Fixpoint lower_letters (s : string) : string :=
  match s with
  | EmptyString => EmptyString
  | String c r => String (lower_letter c) (lower_letters r)
  end.

End TokenSelector.

(** * The rows of the wallet page *)

Module WalletPage.
Local Open Scope string_scope.

(** [interface WalletRowProps], with the [key] of the row. *)
Record WalletRowProps : Type := {
  key : string;
  amount : JS.number;
  usdValue : JS.number;
  formattedAmount : string }.

Section Rows.

Variable Number_toString : JS.number -> string.

(** [prices[currency]]: [None] stands for [undefined], the value of a
    currency that [prices] has no entry for. *)
Variable prices : string -> option JS.number.

(** [prices[balance.currency] || 0] *)
Definition price_or_zero (currency : string) : JS.number :=
  match prices currency with
  | Some p => if JS.truthy p then p else JS.of_Z 0
  | None => JS.of_Z 0
  end.

(** The body of [sortedBalances.map(balance => ...)]. *)
Definition row (balance : Wallet.WalletBalance) : WalletRowProps :=
  let usdValue :=
    JS.mul (price_or_zero (Wallet.currency balance)) (Wallet.amount balance) in
  {| key := Wallet.currency balance ++ "-" ++ Wallet.blockchain balance;
     amount := Wallet.amount balance;
     usdValue := usdValue;
     formattedAmount := JS.toFixed Number_toString 6 (Wallet.amount balance) |}.

Definition rows (balances : list Wallet.WalletBalance) : list WalletRowProps :=
  map row (Wallet.sortedBalances balances).

End Rows.



End WalletPage.

(** * Text that ends a numeric literal *)

Module Text.
Local Open Scope string_scope.

(** [w] is empty or starts with a white space character. *)
Definition ws_headed (w : string) : Prop :=
  match w with
  | EmptyString => True
  | String c _ => JS.isWhiteSpace c = true
  end.

(** [p] has no white space character. *)
Fixpoint no_ws (p : string) : bool :=
  match p with
  | EmptyString => true
  | String a p' => negb (JS.isWhiteSpace a) && no_ws p'
  end.

End Text.

(** * What the form keeps *)

Module Form.
Import Utils App.
Local Open Scope string_scope.

(** One timer at most is pending, and the flag is set exactly while it
    is. *)
Definition one_swap (s : State) : Prop :=
  (isSwapping s = false /\ timers s = O)
  \/ (isSwapping s = true /\ timers s = 1%nat).

(** A quote is shown only for an amount that parses to more than 0 and
    with both tokens selected. *)
Definition quote_grounded (s : State) : Prop :=
  toAmount s = ""
  \/ (JS.gt (JS.parseFloat (fromAmount s)) (JS.of_Z 0) = true
      /\ fromToken s <> None /\ toToken s <> None).

(** The error shown is the failure to load the prices, or the lack of
    balance for the from-token selected and an amount above the balance. *)
Definition error_grounded (s : State) : Prop :=
  error s = ""
  \/ error s = fetch_failed
  \/ (exists f, fromToken s = Some f /\ error s = insufficient f
                /\ JS.gt (JS.parseFloat (fromAmount s)) MOCK_BALANCE = true).

End Form.

(** * Facts about numbers *)

Module JS_facts.

Lemma same_value_finite (p q : Q) :
  JS.same_value (JS.Finite p) (JS.Finite q) <-> p == q.
Proof.
  unfold JS.same_value, JS.strict_equals; simpl.
  rewrite Qeq_alt. destruct (p ?= q)%Q; split; congruence.
Qed.

Lemma lt_finite (p q : Q) : JS.lt (JS.Finite p) (JS.Finite q) = true <-> (p < q)%Q.
Proof.
  unfold JS.lt; simpl. rewrite Qlt_alt.
  destruct (p ?= q)%Q; split; congruence.
Qed.

Lemma le_finite (p q : Q) : JS.le (JS.Finite p) (JS.Finite q) = true <-> (p <= q)%Q.
Proof.
  unfold JS.le; simpl. rewrite Qle_alt.
  destruct (p ?= q)%Q; split; congruence.
Qed.

(** [toFixed] rounds to the nearest multiple of [10^-f], and upwards from
    the middle. *)
Lemma nearest_integer_close (x : Q) :
  (inject_Z (JS.nearest_integer x) <= x + (1 # 2))%Q
  /\ (x - (1 # 2) < inject_Z (JS.nearest_integer x))%Q.
Proof.
  unfold JS.nearest_integer. split.
  - apply Qfloor_le.
  - pose proof (Qlt_floor (x + (1 # 2))) as above.
    rewrite inject_Z_plus in above.
    change (inject_Z 1) with 1%Q in above.
    set (n := inject_Z (Qfloor (x + (1 # 2)))) in *. lra.
Qed.

(** ** [sort] *)

Section SortFacts.
Context {A : Type}.
Variable comparefn : A -> A -> Z.

#[local] Abbreviation in_order := (JS.in_order comparefn).

Lemma insert_perm (x : A) (l : list A) :
  Permutation (JS.insert comparefn x l) (x :: l).
Proof.
  induction l as [|y l IH]; simpl.
  - reflexivity.
  - destruct (comparefn x y <=? 0).
    + reflexivity.
    + rewrite IH. apply perm_swap.
Qed.

Lemma sort_perm (l : list A) : Permutation (JS.sort comparefn l) l.
Proof.
  induction l as [|x l IH]; simpl.
  - reflexivity.
  - rewrite insert_perm. now apply perm_skip.
Qed.

(** The comparison function never says of two elements that each must
    come after the other. *)
Hypothesis comparefn_total :
  forall a b, 0 < comparefn a b -> comparefn b a <= 0.

Lemma insert_hd (x y : A) (l : list A) :
  in_order y x -> HdRel in_order y l -> HdRel in_order y (JS.insert comparefn x l).
Proof.
  intros yx hd. destruct l as [|z l]; simpl.
  - now constructor.
  - destruct (comparefn x z <=? 0); constructor; trivial.
    now inversion hd.
Qed.

Lemma insert_sorted (x : A) (l : list A) :
  Sorted in_order l -> Sorted in_order (JS.insert comparefn x l).
Proof.
  induction 1 as [|y l sorted IH hd]; simpl.
  - repeat constructor.
  - destruct (comparefn x y <=? 0) eqn:test.
    + apply Z.leb_le in test. repeat constructor; trivial.
    + apply Z.leb_gt in test. constructor; [exact IH|].
      apply insert_hd; [|exact hd]. now apply comparefn_total.
Qed.

Lemma sort_sorted (l : list A) : Sorted in_order (JS.sort comparefn l).
Proof.
  induction l as [|x l IH]; simpl.
  - constructor.
  - now apply insert_sorted.
Qed.

Hypothesis comparefn_trans :
  forall a b c, comparefn a b <= 0 -> comparefn b c <= 0 -> comparefn a c <= 0.

Lemma sort_strongly_sorted (l : list A) :
  StronglySorted in_order (JS.sort comparefn l).
Proof.
  apply Sorted_StronglySorted; [|apply sort_sorted].
  intros a b c. apply comparefn_trans.
Qed.

(** The sort is stable: the elements that tie with [x] come out in the
    order they came in. *)
Lemma insert_ties (x a : A) (l : list A) :
  filter (JS.ties comparefn x) (JS.insert comparefn a l)
  = filter (JS.ties comparefn x) (a :: l).
Proof.
  induction l as [|y l IH]; simpl in *.
  - reflexivity.
  - destruct (comparefn a y <=? 0) eqn:test; simpl.
    + reflexivity.
    + rewrite IH. apply Z.leb_gt in test.
      destruct (JS.ties comparefn x a) eqn:with_a; [|reflexivity].
      destruct (JS.ties comparefn x y) eqn:with_y; [|reflexivity].
      unfold JS.ties in with_a, with_y.
      apply andb_true_iff in with_a, with_y.
      destruct with_a as [_ ax], with_y as [xy _].
      apply Z.leb_le in ax, xy.
      pose proof (comparefn_trans _ _ _ ax xy). lia.
Qed.

Lemma sort_stable (x : A) (l : list A) :
  filter (JS.ties comparefn x) (JS.sort comparefn l)
  = filter (JS.ties comparefn x) l.
Proof.
  induction l as [|a l IH]; simpl.
  - reflexivity.
  - rewrite insert_ties. simpl. now rewrite IH.
Qed.

End SortFacts.

(** A relation that holds along a list holds in a weaker form too. *)
Lemma StronglySorted_weaken {A : Type} (R S : A -> A -> Prop) (l : list A) :
  (forall a b, In a l -> In b l -> R a b -> S a b) ->
  StronglySorted R l -> StronglySorted S l.
Proof.
  intros weaker sorted. induction sorted as [|a l sorted IH all].
  - constructor.
  - constructor.
    + apply IH. intros x y inx iny. apply weaker; now right.
    + rewrite Forall_forall in *. intros b inb.
      apply weaker; [now left | now right | now apply all].
Qed.


End JS_facts.

(** * Problem 1 *)

Module Problem1_facts.
Import Problem1.












End Problem1_facts.

(** * The token catalogue *)

Module Utils_facts.
Import Utils.
Local Open Scope string_scope.

(** ** The map *)

Lemma map_get_set (m : TokenMap) (k k' : string) (v : Token) :
  map_get (map_set m k v) k' = if String.eqb k k' then Some v else map_get m k'.
Proof.
  induction m as [|[k0 v0] m IH]; simpl.
  - reflexivity.
  - destruct (String.eqb_spec k0 k) as [-> | diff]; simpl.
    + destruct (String.eqb k k'); reflexivity.
    + rewrite IH. destruct (String.eqb_spec k0 k') as [-> | diff'].
      * destruct (String.eqb_spec k k'); congruence.
      * reflexivity.
Qed.

Lemma map_set_keys (m : TokenMap) (k k' : string) (v : Token) :
  In k' (map fst (map_set m k v)) <-> k' = k \/ In k' (map fst m).
Proof.
  induction m as [|[k0 v0] m IH]; simpl.
  - intuition.
  - destruct (String.eqb_spec k0 k) as [-> | diff]; simpl.
    + intuition.
    + rewrite IH. intuition.
Qed.

Lemma map_set_well_keyed (m : TokenMap) (v : Token) :
  well_keyed m -> well_keyed (map_set m (currency v) v).
Proof.
  intros [distinct keyed]. split.
  - clear keyed. induction m as [|[k0 v0] m IH]; simpl.
    + repeat constructor. intros [].
    + inversion distinct as [|? ? fresh rest]; subst.
      destruct (String.eqb_spec k0 (currency v)) as [-> | diff]; simpl.
      * now constructor.
      * constructor; [|now apply IH].
        rewrite map_set_keys. intros [same | old]; congruence.
  - induction keyed as [|[k0 v0] m here rest IH]; simpl.
    + repeat constructor.
    + inversion distinct; subst.
      destruct (String.eqb k0 (currency v)); constructor; auto.
Qed.

Lemma map_get_absent (m : TokenMap) (k : string) :
  ~ In k (map fst m) -> map_get m k = None.
Proof.
  induction m as [|[k0 v0] m IH]; simpl; intros absent.
  - reflexivity.
  - destruct (String.eqb_spec k0 k) as [-> | diff]; [tauto|].
    apply IH. tauto.
Qed.

Lemma tokens_of_values (m : TokenMap) (c : string) :
  well_keyed m ->
  tokens_of c (map_values m) =
  match map_get m c with Some t => [t] | None => [] end.
Proof.
  unfold well_keyed, tokens_of, map_values.
  induction m as [|[k0 v0] m IH]; simpl; intros [distinct keyed].
  - reflexivity.
  - inversion distinct as [|? ? fresh others]; subst.
    inversion keyed as [|? ? here rest]; subst. simpl in here.
    rewrite here. specialize (IH (conj others rest)).
    destruct (String.eqb_spec k0 c) as [-> | diff].
    + rewrite IH, (map_get_absent m c fresh). reflexivity.
    + exact IH.
Qed.

Lemma values_currencies (m : TokenMap) :
  well_keyed m -> map currency (map_values m) = map fst m.
Proof.
  intros [_ keyed]. unfold map_values.
  induction keyed as [|[k0 v0] m here rest IH]; simpl; [reflexivity|].
  simpl in here. now rewrite here, IH.
Qed.

(** ** The map built from the records *)

Lemma build_well_keyed (data : list Raw.RawTokenData) :
  well_keyed (fold_left add_item data []).
Proof.
  induction data as [|item data IH] using rev_ind.
  - split; constructor.
  - rewrite fold_left_app. simpl. unfold add_item at 1.
    destruct (valid_price item); [|exact IH].
    apply (map_set_well_keyed _ (token_of item)), IH.
Qed.

(** The map holds, for a currency, the token of the last valid record. *)
Lemma build_get (data : list Raw.RawTokenData) (c : string)
  (d : Raw.RawTokenData) :
  map_get (fold_left add_item data []) c =
  match records_of c data with
  | [] => None
  | _ :: _ => Some (token_of (last (records_of c data) d))
  end.
Proof.
  induction data as [|item data IH] using rev_ind.
  - reflexivity.
  - rewrite fold_left_app. unfold records_of in *. rewrite filter_app.
    simpl. unfold add_item at 1.
    destruct (valid_price item); simpl.
    + rewrite map_get_set.
      destruct (String.eqb (Raw.currency item) c).
      * rewrite last_last.
        destruct (filter _ data); reflexivity.
      * rewrite app_nil_r. exact IH.
    + rewrite app_nil_r. exact IH.
Qed.

Lemma tokens_of_perm (c : string) (l l' : list Token) :
  Permutation l l' -> Permutation (tokens_of c l) (tokens_of c l').
Proof.
  unfold tokens_of. induction 1 as [| x l l' perm IH | x y l | l l' l'' ]; simpl.
  - constructor.
  - destruct (String.eqb (currency x) c); auto.
  - destruct (String.eqb (currency x) c), (String.eqb (currency y) c);
      auto using perm_swap.
  - etransitivity; eassumption.
Qed.

Lemma last_of_records (c : string) (data : list Raw.RawTokenData)
  (d : Raw.RawTokenData) :
  records_of c data <> [] ->
  Raw.currency (last (records_of c data) d) = c.
Proof.
  intros some.
  destruct (exists_last some) as [l [item split]].
  assert (kept : In item (records_of c data)).
  { rewrite split. apply in_or_app. right. now left. }
  rewrite split, last_last.
  apply filter_In in kept. destruct kept as [_ test].
  apply andb_true_iff in test. now apply String.eqb_eq.
Qed.

(** C4.  When two or more records of the input carry the currency [c]
    with a valid price, the catalogue holds exactly one token for [c], and
    its price is the price of the last of these records in input order. *)
Theorem processTokenData_last_wins (localeCompare : string -> string -> Z)
  (data : list Raw.RawTokenData) (c : string) (d : Raw.RawTokenData) :
  (2 <= List.length (records_of c data))%nat ->
  exists t,
    tokens_of c (processTokenData localeCompare data) = [t]
    /\ currency t = c
    /\ price t = Raw.price (last (records_of c data) d).
Proof.
  intros several.
  assert (some : records_of c data <> []).
  { destruct (records_of c data); [simpl in several; lia | discriminate]. }
  exists (token_of (last (records_of c data) d)).
  split; [|split; [now apply last_of_records | reflexivity]].
  unfold processTokenData.
  apply Permutation_length_1_inv.
  rewrite (tokens_of_perm c _ _ (JS_facts.sort_perm _ _)).
  rewrite tokens_of_values by apply build_well_keyed.
  rewrite (build_get data c d).
  destruct (records_of c data); [contradiction | reflexivity].
Qed.


(** ** The examples of the specification, in code-unit order *)

Lemma ordinal_compare_total (a b : string) :
  0 < ordinal_compare a b -> ordinal_compare b a <= 0.
Proof.
  unfold ordinal_compare. rewrite (String.compare_antisym b a).
  destruct (String.compare a b); simpl; lia.
Qed.



Lemma processTokenData_last_wins_example :
  exists t,
    tokens_of "ETH" (processTokenData ordinal_compare example_records) = [t]
    /\ currency t = "ETH"
    /\ price t = JS.of_Z 60.
Proof.
  apply (processTokenData_last_wins ordinal_compare example_records "ETH"
           {| Raw.currency := ""; Raw.price := JS.NaN |}).
  simpl. lia.
Defined.


Example processTokenData_ordering_example :
  processTokenData ordinal_compare example_records
  = [ {| currency := "BTC"; price := JS.of_Z 100; icon := icon_url "BTC" |};
      {| currency := "ETH"; price := JS.of_Z 60; icon := icon_url "ETH" |} ].
Proof. reflexivity. Qed.

Example processTokenData_drops_invalid_prices :
  processTokenData ordinal_compare
    [ {| Raw.currency := "XRP"; Raw.price := JS.of_Z 0 |};
      {| Raw.currency := "ADA"; Raw.price := JS.of_Z (-5) |};
      {| Raw.currency := "SOL"; Raw.price := JS.of_Z 10 |} ]
  = [ {| currency := "SOL"; price := JS.of_Z 10; icon := icon_url "SOL" |} ].
Proof. reflexivity. Qed.

End Utils_facts.

(** * The wallet page *)

Module Wallet_facts.
Import Wallet.
Local Open Scope string_scope.

(** The priorities [getPriority] gives: the sentinel, or 20 and more. *)
Lemma getPriority_range (blockchain : string) :
  getPriority blockchain = -99 \/ 20 <= getPriority blockchain.
Proof.
  unfold getPriority.
  repeat match goal with
         | |- context [String.eqb ?a ?b] => destruct (String.eqb a b)
         end; lia.
Qed.

Lemma supported_iff_not_sentinel (blockchain : string) :
  Z.gtb (getPriority blockchain) (-99) = negb (Z.eqb (getPriority blockchain) (-99)).
Proof.
  destruct (getPriority_range blockchain) as [-> | high]; [reflexivity|].
  rewrite Z.gtb_ltb.
  replace (Z.ltb (-99) (getPriority blockchain)) with true
    by (symmetry; apply Z.ltb_lt; lia).
  replace (Z.eqb (getPriority blockchain) (-99)) with false
    by (symmetry; apply Z.eqb_neq; lia).
  reflexivity.
Qed.

(** C7.  [sortedBalances] returns exactly the balances whose blockchain
    priority is not the sentinel -99 and whose amount is greater than 0,
    in descending order of priority. *)
Theorem sortedBalances_selects_and_orders (balances : list WalletBalance) :
  Permutation
    (sortedBalances balances)
    (filter (fun b => negb (Z.eqb (getPriority (blockchain b)) (-99))
                      && JS.gt (amount b) (JS.of_Z 0)) balances)
  /\ StronglySorted
       (fun a b => getPriority (blockchain b) <= getPriority (blockchain a))
       (sortedBalances balances).
Proof.
  unfold sortedBalances. split.
  - rewrite JS_facts.sort_perm.
    erewrite filter_ext; [reflexivity|].
    intros b. unfold supported_and_positive.
    now rewrite supported_iff_not_sentinel.
  - eapply JS_facts.StronglySorted_weaken;
      [|apply JS_facts.sort_strongly_sorted].
    + intros a b _ _. unfold JS.in_order, by_priority. lia.
    + intros a b. unfold by_priority. lia.
    + intros a b c. unfold by_priority. lia.
Qed.

(** Balances of the same priority come out in the order they came in. *)
Lemma sortedBalances_keeps_ties (x : WalletBalance)
  (balances : list WalletBalance) :
  filter (JS.ties by_priority x) (sortedBalances balances)
  = filter (JS.ties by_priority x) (filter supported_and_positive balances).
Proof.
  apply JS_facts.sort_stable. intros a b c. unfold by_priority. lia.
Qed.

(** The selection example of the specification. *)
Example sortedBalances_example :
  sortedBalances
    [ {| currency := "ETH"; amount := JS.of_Z 2; blockchain := "Ethereum" |};
      {| currency := "FOO"; amount := JS.of_Z 1; blockchain := "Unknown" |};
      {| currency := "OSMO"; amount := JS.of_Z 0; blockchain := "Osmosis" |} ]
  = [ {| currency := "ETH"; amount := JS.of_Z 2; blockchain := "Ethereum" |} ].
Proof. reflexivity. Qed.

End Wallet_facts.

(** * The swap form *)

Module App_facts.
Import Utils App.
Local Open Scope string_scope.

(** ** Numbers in the guards *)

Lemma positive_truthy (x : JS.number) :
  JS.gt x (JS.of_Z 0) = true -> JS.truthy x = true.
Proof.
  destruct x as [| negative | q]; simpl; try discriminate; [reflexivity|].
  unfold JS.gt. intros positive. apply JS_facts.lt_finite in positive.
  unfold Qlt in positive. simpl in positive.
  apply negb_true_iff, Z.eqb_neq. lia.
Qed.

Lemma same_value_not_gt (x y : JS.number) :
  JS.same_value x y -> JS.gt x y = false.
Proof.
  unfold JS.same_value, JS.strict_equals, JS.gt, JS.lt.
  destruct x as [| a | p], y as [| b | q]; simpl; try discriminate;
    try (destruct a; discriminate); try (destruct b; discriminate).
  - destruct a, b; simpl; congruence.
  - rewrite <- (Qcompare_antisym p q).
    destruct (p ?= q)%Q; simpl; congruence.
Qed.

Lemma same_number_refl (x : JS.number) : same_number x x = true.
Proof.
  destruct x as [| a | q]; simpl.
  - reflexivity.
  - apply eqb_reflx.
  - apply Qeq_bool_iff. reflexivity.
Qed.

Lemma same_token_refl (t : option Token) : same_token t t = true.
Proof.
  destruct t as [t|]; simpl; [|reflexivity].
  now rewrite !String.eqb_refl, same_number_refl.
Qed.

Section Platform.

Variable localeCompare : string -> string -> Z.
Variable Number_toString : JS.number -> string.

#[local] Abbreviation recompute := (recompute Number_toString).
#[local] Abbreviation render := (render Number_toString).
#[local] Abbreviation step := (step localeCompare Number_toString).
#[local] Abbreviation run := (run localeCompare Number_toString).

Lemma same_dependencies_refl (s : State) : same_dependencies s s = true.
Proof.
  unfold same_dependencies.
  now rewrite String.eqb_refl, !same_token_refl.
Qed.

Lemma render_unchanged (s : State) : render s s = s.
Proof. unfold App.render. now rewrite same_dependencies_refl. Qed.

(** ** What the effect leaves alone *)

(** The cases of the effect: each token there or not, each test passed or
    not. *)
Ltac recompute_cases s :=
  unfold App.recompute;
  destruct s as [? [?|] [?|] ? ? ? ? ? ? ? ? ?]; simpl;
  repeat match goal with
         | |- context [if ?b then _ else _] => destruct b; simpl
         end.

Lemma recompute_keeps (balance : JS.number) (s : State) :
  tokens (recompute balance s) = tokens s /\
  fromToken (recompute balance s) = fromToken s /\
  toToken (recompute balance s) = toToken s /\
  fromAmount (recompute balance s) = fromAmount s /\
  isSwapping (recompute balance s) = isSwapping s /\
  timers (recompute balance s) = timers s.
Proof.
  recompute_cases s; repeat split.
Qed.

Lemma render_keeps (before after : State) :
  fromToken (render before after) = fromToken after /\
  toToken (render before after) = toToken after /\
  fromAmount (render before after) = fromAmount after /\
  isSwapping (render before after) = isSwapping after /\
  timers (render before after) = timers after.
Proof.
  unfold App.render. destruct (same_dependencies before after); [auto|].
  pose proof (recompute_keeps MOCK_BALANCE after). tauto.
Qed.

(** ** The error the effect sets *)

Lemma recompute_error (balance : JS.number) (s : State) :
  error (recompute balance s) =
  match fromToken s with
  | Some f =>
      if JS.gt (JS.parseFloat (fromAmount s)) balance then insufficient f
      else ""
  | None => ""
  end.
Proof.
  recompute_cases s; reflexivity.
Qed.

Lemma recompute_toAmount (balance : JS.number) (s : State) :
  toAmount (recompute balance s) =
  match fromToken s, toToken s with
  | Some f, Some t =>
      if JS.gt (JS.parseFloat (fromAmount s)) (JS.of_Z 0)
         && JS.truthy (price f) && JS.truthy (price t)
      then JS.toFixed Number_toString 6
             (JS.mul (JS.parseFloat (fromAmount s))
                (JS.div (price f) (price t)))
      else ""
  | _, _ => ""
  end.
Proof.
  recompute_cases s; reflexivity.
Qed.


(** Running the effect again changes nothing. *)
Lemma recompute_idempotent (balance : JS.number) (s : State) :
  recompute balance (recompute balance s) = recompute balance s.
Proof.
  unfold App.recompute.
  destruct s as [tk [f|] [t|] fa ta fm tm st er ld sw ti]; simpl;
    try reflexivity.
  - destruct (JS.gt (JS.parseFloat fa) balance) eqn:over;
      destruct (JS.gt (JS.parseFloat fa) (JS.of_Z 0)
                && JS.truthy (price f) && JS.truthy (price t)) eqn:quote;
      repeat (cbn; rewrite ?over, ?quote); reflexivity.
  - destruct (JS.gt (JS.parseFloat fa) balance) eqn:over;
      repeat (cbn; rewrite ?over); reflexivity.
Qed.

(** ** The insufficient-balance check *)

(** C9.  With no from-token selected the effect leaves no error, whatever
    the amount entered and whatever the balance. *)
Theorem recompute_no_error_without_token (balance : JS.number) (s : State) :
  fromToken s = None -> error (recompute balance s) = "".
Proof.
  intros unselected. now rewrite recompute_error, unselected.
Qed.

Lemma insufficient_nonempty (f : Token) : insufficient f <> "".
Proof. discriminate. Qed.

(** C5.  With a from-token selected, the effect sets the
    insufficient-balance error exactly when the parsed amount is greater
    than the balance, and leaves no error otherwise; an amount equal to
    the balance gives no error. *)
Theorem recompute_insufficient_balance (balance : JS.number) (s : State)
  (f : Token) :
  fromToken s = Some f ->
  (error (recompute balance s) = insufficient f
   <-> JS.gt (JS.parseFloat (fromAmount s)) balance = true)
  /\ (error (recompute balance s) = ""
      <-> JS.gt (JS.parseFloat (fromAmount s)) balance = false)
  /\ (JS.same_value (JS.parseFloat (fromAmount s)) balance ->
      error (recompute balance s) = "").
Proof.
  intros selected. rewrite recompute_error, selected.
  pose proof (insufficient_nonempty f) as nonempty.
  split; [|split].
  - destruct (JS.gt _ balance); split; congruence.
  - destruct (JS.gt _ balance); split; congruence.
  - intros equal. now rewrite (same_value_not_gt _ _ equal).
Qed.

(** ** The quote *)


(** The prices that stop the quote: zero and [NaN]. *)
Lemma truthy_false (x : JS.number) :
  JS.truthy x = false <-> x = JS.NaN \/ JS.same_value x (JS.of_Z 0).
Proof.
  destruct x as [| negative | q].
  - simpl. intuition.
  - simpl. split; [discriminate|]. intros [|same]; [discriminate|].
    destruct negative; discriminate.
  - unfold JS.of_Z. rewrite JS_facts.same_value_finite.
    unfold JS.truthy. rewrite negb_false_iff, Z.eqb_eq.
    unfold Qeq. simpl. split.
    + intros zero. right. lia.
    + intros [|zero]; [discriminate | lia].
Qed.

(** ** The amount field *)

Lemma ge_zero (x : JS.number) :
  JS.ge x (JS.of_Z 0) && negb (JS.isNaN x) = true
  <-> (exists q, x = JS.Finite q /\ (0 <= q)%Q) \/ x = JS.Infinity false.
Proof.
  destruct x as [| negative | q]; simpl.
  - split; [discriminate|]. intros [[q [[=] _]] | [=]].
  - destruct negative; simpl.
    + split; [discriminate|]. intros [[q [[=] _]] | [=]].
    + split; auto.
  - rewrite andb_true_r. unfold JS.ge, JS.of_Z.
    rewrite JS_facts.le_finite. split.
    + intros bound. left. now exists q.
    + intros [[q' [[= <-] bound]] | [=]]. exact bound.
Qed.



(** ** The selected tokens *)

Lemma find_currency_found (name : string) (l : list Token) (t : Token) :
  find_currency name l = Some t -> currency t = name.
Proof.
  unfold find_currency. intros found.
  apply find_some in found. now apply String.eqb_eq.
Qed.

Lemma handle_distinct (e : Event) (s : State) :
  distinct_tokens s -> distinct_tokens (handle localeCompare e s).
Proof.
  intros distinct.
  destruct e as [data | | text | tok | tok | | | | | | | | term]; simpl;
    try exact distinct.
  - intros f t from to. simpl in from, to.
    apply find_currency_found in from, to. congruence.
  - unfold handleFromAmountChange.
    destruct (_ || _); exact distinct.
  - unfold handleSelectFromToken, distinct_tokens in *.
    destruct (toToken s) as [t|] eqn:to; simpl.
    + destruct (String.eqb_spec (currency t) (currency tok)) as [same | diff];
        simpl; intros f' t' [= <-] to'.
      * intros clash. apply (distinct t' t to' eq_refl). congruence.
      * rewrite to in to'. injection to' as <-. congruence.
    + intros f' t' _ to'. rewrite to in to'. discriminate.
  - unfold handleSelectToToken, distinct_tokens in *.
    destruct (fromToken s) as [f|] eqn:from; simpl.
    + destruct (String.eqb_spec (currency f) (currency tok)) as [same | diff];
        simpl; intros f' t' from' [= <-].
      * intros clash. apply (distinct f f' eq_refl from'). congruence.
      * rewrite from in from'. injection from' as <-. congruence.
    + intros f' t' from' _. rewrite from in from'. discriminate.
  - unfold handleSwapTokens, distinct_tokens in *.
    destruct (isSwapping s); simpl; [exact distinct|].
    intros f t from to clash. apply (distinct t f to from). congruence.
  - destruct (isButtonDisabled s); exact distinct.
  - destruct (timers s); exact distinct.
Qed.

Lemma step_distinct (e : Event) (s : State) :
  distinct_tokens s -> distinct_tokens (step s e).
Proof.
  intros distinct. apply (handle_distinct e) in distinct.
  unfold App.step, distinct_tokens in *.
  destruct (render_keeps s (handle localeCompare e s)) as [-> [-> _]].
  exact distinct.
Qed.

Lemma run_distinct (events : list Event) (s : State) :
  distinct_tokens s -> distinct_tokens (run s events).
Proof.
  revert s. induction events as [|e events IH]; simpl; intros s distinct.
  - exact distinct.
  - apply IH, step_distinct, distinct.
Qed.

(** C2.  After every sequence of events from the initial state the two
    selected tokens differ by currency.  Selecting as to-token a token of
    the currency the from-token holds makes the previous to-token the
    from-token, and the same with the two sides exchanged. *)
Theorem selected_tokens_differ :
  (forall events, distinct_tokens (run initial events))
  /\ (forall s f t,
         fromToken s = Some f -> currency f = currency t ->
         fromToken (step s (SelectToToken t)) = toToken s
         /\ toToken (step s (SelectToToken t)) = Some t)
  /\ (forall s f t,
         toToken s = Some f -> currency f = currency t ->
         toToken (step s (SelectFromToken t)) = fromToken s
         /\ fromToken (step s (SelectFromToken t)) = Some t).
Proof.
  split; [|split].
  - intros events. apply run_distinct. intros f t [=].
  - intros s f t from same. unfold App.step.
    destruct (render_keeps s (handle localeCompare (SelectToToken t) s))
      as [-> [-> _]].
    simpl. unfold handleSelectToToken. rewrite from, same, String.eqb_refl.
    split; reflexivity.
  - intros s f t to same. unfold App.step.
    destruct (render_keeps s (handle localeCompare (SelectFromToken t) s))
      as [-> [-> _]].
    simpl. unfold handleSelectFromToken. rewrite to, same, String.eqb_refl.
    split; reflexivity.
Qed.

(** ** The swap button *)

Lemma button_enabled (s : State) :
  isButtonDisabled s = false <->
  fromAmount s <> ""
  /\ JS.le (JS.parseFloat (fromAmount s)) (JS.of_Z 0) = false
  /\ error s = "" /\ isSwapping s = false.
Proof.
  unfold isButtonDisabled, JS.nonempty.
  destruct (String.eqb_spec (fromAmount s) ""), (String.eqb_spec (error s) ""),
    (JS.le (JS.parseFloat (fromAmount s)) (JS.of_Z 0)), (isSwapping s);
    simpl; intuition congruence.
Qed.

(** A click on the disabled button changes nothing. *)
Lemma trigger_swap_ignored (s : State) :
  isButtonDisabled s = true -> step s TriggerSwap = s.
Proof.
  intros disabled. unfold App.step. simpl. rewrite disabled.
  apply render_unchanged.
Qed.

(** A click on the enabled button sets the flag and nothing else that is
    shown; when the timer runs out both amounts are cleared, the flag is
    reset and no error is left. *)
Lemma trigger_swap_completes (s : State) :
  isButtonDisabled s = false ->
  step s TriggerSwap = handleSwapClick s
  /\ isSwapping (step s TriggerSwap) = true
  /\ fromAmount (step (step s TriggerSwap) SwapTimeout) = ""
  /\ toAmount (step (step s TriggerSwap) SwapTimeout) = ""
  /\ isSwapping (step (step s TriggerSwap) SwapTimeout) = false
  /\ error (step (step s TriggerSwap) SwapTimeout) = "".
Proof.
  intros enabled.
  assert (clicked : step s TriggerSwap = handleSwapClick s).
  { unfold App.step. simpl. rewrite enabled. unfold App.render.
    replace (same_dependencies s (handleSwapClick s))
      with (same_dependencies s s) by reflexivity.
    now rewrite same_dependencies_refl. }
  rewrite clicked. split; [reflexivity | split; [reflexivity|]].
  apply button_enabled in enabled. destruct enabled as [entered _].
  apply String.eqb_neq in entered.
  unfold App.step. simpl. unfold App.render, same_dependencies. simpl.
  rewrite entered. simpl.
  rewrite recompute_toAmount, recompute_error.
  destruct (recompute_keeps MOCK_BALANCE
              (swap_completed (setTimers (timers s) (handleSwapClick s))))
    as [_ [_ [_ [-> [-> _]]]]].
  simpl.
  destruct (fromToken s), (toToken s); repeat split; reflexivity.
Qed.

(** [handleSwapClick] itself tests nothing: what keeps a click from it is
    the [disabled] attribute of the button. *)
Lemma handleSwapClick_unguarded (s : State) :
  isSwapping (handleSwapClick s) = true.
Proof. reflexivity. Qed.

End Platform.

(** ** The examples of the specification, and the edges *)

Lemma recompute_no_error_without_token_example :
  error (recompute toString_stand_in MOCK_BALANCE (setFromAmount "1000" initial))
  = "".
Proof.
  apply (recompute_no_error_without_token toString_stand_in MOCK_BALANCE
           (setFromAmount "1000" initial)).
  reflexivity.
Defined.

(** At the balance there is no error; one unit above there is one. *)
Lemma recompute_insufficient_balance_boundary :
  error (recompute toString_stand_in MOCK_BALANCE (eth_to_usdc "10")) = ""
  /\ error (recompute toString_stand_in MOCK_BALANCE (eth_to_usdc "11"))
     = "Insufficient ETH balance".
Proof.
  split.
  - apply (proj2 (proj2 (recompute_insufficient_balance toString_stand_in
                           MOCK_BALANCE (eth_to_usdc "10") ETH eq_refl))).
    reflexivity.
  - apply (proj1 (recompute_insufficient_balance toString_stand_in
                    MOCK_BALANCE (eth_to_usdc "11") ETH eq_refl)).
    reflexivity.
Defined.





Lemma selected_tokens_differ_example :
  distinct_tokens
    (run ordinal_compare toString_stand_in initial
       [PricesLoaded price_feed; SelectToToken ETH])
  /\ (fromToken (step ordinal_compare toString_stand_in (eth_to_usdc "1")
                   (SelectToToken ETH)) = Some USDC
      /\ toToken (step ordinal_compare toString_stand_in (eth_to_usdc "1")
                    (SelectToToken ETH)) = Some ETH)
  /\ (toToken (step ordinal_compare toString_stand_in (eth_to_usdc "1")
                 (SelectFromToken USDC)) = Some ETH
      /\ fromToken (step ordinal_compare toString_stand_in (eth_to_usdc "1")
                      (SelectFromToken USDC)) = Some USDC).
Proof.
  pose proof (selected_tokens_differ ordinal_compare toString_stand_in)
    as [always [to from]].
  split; [apply always | split].
  - apply (to (eth_to_usdc "1") ETH ETH); reflexivity.
  - apply (from (eth_to_usdc "1") USDC USDC); reflexivity.
Defined.


End App_facts.

(** * More about [sort] *)

Module Sort_facts.

Section Sorted.
Context {A : Type}.
Variable comparefn : A -> A -> Z.

(** Sorting a list that is in order leaves it as it is. *)
Lemma sort_sorted_list (l : list A) :
  Sorted (JS.in_order comparefn) l -> JS.sort comparefn l = l.
Proof.
  induction 1 as [|x l sorted IH hd]; simpl.
  - reflexivity.
  - rewrite IH. destruct hd as [|y l first]; simpl.
    + reflexivity.
    + unfold JS.in_order in first. apply Z.leb_le in first.
      now rewrite first.
Qed.

Lemma sort_In (x : A) (l : list A) :
  In x (JS.sort comparefn l) <-> In x l.
Proof.
  split; apply Permutation_in;
    [|symmetry]; apply JS_facts.sort_perm.
Qed.

End Sorted.

Lemma filter_all {A : Type} (p : A -> bool) (l : list A) :
  (forall x, In x l -> p x = true) -> filter p l = l.
Proof.
  induction l as [|x l IH]; simpl; intros all.
  - reflexivity.
  - rewrite (all x) by now left. f_equal. apply IH. intros y iny.
    apply all. now right.
Qed.

End Sort_facts.

(** * More about the token catalogue *)

Module Catalogue_facts.
Import Utils.
Local Open Scope string_scope.

Lemma map_get_present (m : TokenMap) (k : string) (t : Token) :
  well_keyed m -> In (k, t) m -> map_get m k = Some t.
Proof.
  intros [distinct _]. induction m as [|[k0 v0] m IH]; simpl; intros present.
  - destruct present.
  - inversion distinct as [|? ? fresh others]; subst.
    destruct present as [[= -> ->] | later].
    + now rewrite String.eqb_refl.
    + destruct (String.eqb_spec k0 k) as [-> | diff].
      * destruct fresh. change k with (fst (k, t)). now apply in_map.
      * now apply IH.
Qed.

(** A token of the map is the token of the last valid record of its
    currency. *)
Lemma build_entry (data : list Raw.RawTokenData) (k : string) (t : Token)
  (d : Raw.RawTokenData) :
  In (k, t) (fold_left add_item data []) ->
  records_of k data <> []
  /\ t = token_of (last (records_of k data) d).
Proof.
  intros present.
  apply (map_get_present _ _ _ (Utils_facts.build_well_keyed data)) in present.
  rewrite (Utils_facts.build_get data k d) in present.
  destruct (records_of k data) eqn:records; [discriminate|].
  split; [discriminate|]. now injection present as <-.
Qed.

Lemma last_record_in (c : string) (data : list Raw.RawTokenData)
  (d : Raw.RawTokenData) :
  records_of c data <> [] ->
  In (last (records_of c data) d) data
  /\ valid_price (last (records_of c data) d) = true
  /\ Raw.currency (last (records_of c data) d) = c.
Proof.
  intros some.
  destruct (exists_last some) as [l [item split]].
  assert (kept : In item (records_of c data)).
  { rewrite split. apply in_or_app. right. now left. }
  rewrite split, last_last.
  apply filter_In in kept. destruct kept as [present test].
  apply andb_true_iff in test. destruct test as [valid same].
  repeat split; trivial. now apply String.eqb_eq.
Qed.

Lemma catalogue_token (localeCompare : string -> string -> Z)
  (data : list Raw.RawTokenData) (t : Token) :
  In t (processTokenData localeCompare data) ->
  exists item, In item data /\ valid_price item = true /\ t = token_of item.
Proof.
  unfold processTokenData. rewrite Sort_facts.sort_In.
  unfold map_values. rewrite in_map_iff. intros [[k v] [<- present]].
  simpl.
  destruct (build_entry data k v (Feed.record_of v) present) as [some ->].
  destruct (last_record_in k data (Feed.record_of v) some) as [here [valid _]].
  eauto.
Qed.

(** The tokens of the catalogue for one currency. *)
Lemma catalogue_tokens_of (localeCompare : string -> string -> Z)
  (data : list Raw.RawTokenData) (c : string) (d : Raw.RawTokenData) :
  tokens_of c (processTokenData localeCompare data) =
  match records_of c data with
  | [] => []
  | _ :: _ => [token_of (last (records_of c data) d)]
  end.
Proof.
  assert (perm : Permutation
                   (tokens_of c (processTokenData localeCompare data))
                   (tokens_of c (map_values (fold_left add_item data [])))).
  { apply Utils_facts.tokens_of_perm, JS_facts.sort_perm. }
  rewrite Utils_facts.tokens_of_values in perm
    by apply Utils_facts.build_well_keyed.
  rewrite (Utils_facts.build_get data c d) in perm.
  destruct (records_of c data).
  - now apply Permutation_nil, Permutation_sym.
  - now apply Permutation_length_1_inv, Permutation_sym.
Qed.

Lemma valid_price_positive (item : Raw.RawTokenData) :
  valid_price item = true <-> JS.gt (Raw.price item) (JS.of_Z 0) = true.
Proof.
  unfold valid_price. split.
  - intros valid. now apply andb_true_iff in valid.
  - intros positive. rewrite positive, andb_true_r.
    now apply App_facts.positive_truthy.
Qed.

(** X1.  Every token of the catalogue is the token of a record of the
    input whose price is greater than 0: its price is greater than 0, and
    its icon is the address made from its currency. *)
Theorem catalogue_tokens_are_valid (localeCompare : string -> string -> Z)
  (data : list Raw.RawTokenData) (t : Token) :
  In t (processTokenData localeCompare data) ->
  (exists item,
      In item data /\ Raw.currency item = currency t
      /\ Raw.price item = price t)
  /\ JS.gt (price t) (JS.of_Z 0) = true
  /\ icon t = icon_url (currency t).
Proof.
  intros listed.
  destruct (catalogue_token _ _ _ listed) as [item [here [valid ->]]].
  split; [|split].
  - exists item. simpl. auto.
  - simpl. now apply valid_price_positive.
  - reflexivity.
Qed.

(** X2.  A currency is in the catalogue exactly when some record of the
    input carries it with a price greater than 0. *)
Theorem catalogue_currencies (localeCompare : string -> string -> Z)
  (data : list Raw.RawTokenData) (c : string) :
  In c (map currency (processTokenData localeCompare data))
  <-> exists item,
        In item data /\ Raw.currency item = c
        /\ JS.gt (Raw.price item) (JS.of_Z 0) = true.
Proof.
  split.
  - rewrite in_map_iff. intros [t [<- listed]].
    destruct (catalogue_token _ _ _ listed) as [item [here [valid ->]]].
    exists item. simpl. repeat split; trivial.
    now apply valid_price_positive.
  - intros [item [here [<- positive]]].
    assert (kept : In item (records_of (Raw.currency item) data)).
    { apply filter_In. split; [exact here|].
      apply andb_true_iff. split.
      - now apply valid_price_positive.
      - apply String.eqb_refl. }
    pose proof (catalogue_tokens_of localeCompare data (Raw.currency item) item)
      as found.
    destruct (records_of (Raw.currency item) data) as [|r rs] eqn:records;
      [destruct kept|].
    assert (listed : In (token_of (last (r :: rs) item))
                       (tokens_of (Raw.currency item)
                          (processTokenData localeCompare data))).
    { rewrite found. now left. }
    apply filter_In in listed. destruct listed as [listed same].
    apply String.eqb_eq in same. rewrite <- same.
    now apply in_map.
Qed.

Lemma build_ignores_invalid (data : list Raw.RawTokenData) (m : TokenMap) :
  fold_left add_item (filter valid_price data) m = fold_left add_item data m.
Proof.
  revert m. induction data as [|item data IH]; simpl; intros m.
  - reflexivity.
  - destruct (valid_price item) eqn:valid; simpl.
    + apply IH.
    + rewrite IH. f_equal. unfold add_item. now rewrite valid.
Qed.

(** X3.  The records whose price is not valid (zero, negative, [NaN])
    change nothing: the catalogue is the catalogue of the other records. *)
Theorem catalogue_ignores_invalid (localeCompare : string -> string -> Z)
  (data : list Raw.RawTokenData) :
  processTokenData localeCompare (filter valid_price data)
  = processTokenData localeCompare data.
Proof.
  unfold processTokenData. now rewrite build_ignores_invalid.
Qed.

(** ** The catalogue, read again *)

Lemma map_set_fresh (m : TokenMap) (k : string) (v : Token) :
  ~ In k (map fst m) -> map_set m k v = (m ++ [(k, v)])%list.
Proof.
  induction m as [|[k0 v0] m IH]; simpl; intros fresh.
  - reflexivity.
  - destruct (String.eqb_spec k0 k) as [-> | diff]; [tauto|].
    rewrite IH by tauto. reflexivity.
Qed.

Lemma build_distinct (l : list Token) (m : TokenMap) :
  (forall t, In t l ->
     valid_price (Feed.record_of t) = true
     /\ token_of (Feed.record_of t) = t) ->
  NoDup (map currency l) ->
  (forall t, In t l -> ~ In (currency t) (map fst m)) ->
  fold_left add_item (map Feed.record_of l) m = (m ++ map Feed.entry l)%list.
Proof.
  revert m. induction l as [|t l IH]; simpl; intros m sound distinct apart.
  - now rewrite app_nil_r.
  - inversion distinct as [|? ? fresh others]; subst.
    destruct (sound t (or_introl eq_refl)) as [valid same].
    unfold add_item at 2. rewrite valid, same. simpl.
    rewrite map_set_fresh by (apply apart; now left).
    rewrite IH; trivial.
    + now rewrite <- app_assoc.
    + intros u inu. apply sound. now right.
    + intros u inu. rewrite map_app, in_app_iff. simpl.
      intros [old | [same_key | []]].
      * apply (apart u); [now right | exact old].
      * apply fresh. rewrite same_key. now apply in_map.
Qed.

(** X4.  Under a collation that never puts each of two strings after the
    other, the catalogue read again as a feed gives the same catalogue. *)
Theorem catalogue_read_again (localeCompare : string -> string -> Z)
  (total : forall a b, 0 < localeCompare a b -> localeCompare b a <= 0)
  (data : list Raw.RawTokenData) :
  processTokenData localeCompare
    (map Feed.record_of (processTokenData localeCompare data))
  = processTokenData localeCompare data.
Proof.
  set (out := processTokenData localeCompare data).
  assert (sound : forall t, In t out ->
            valid_price (Feed.record_of t) = true
            /\ token_of (Feed.record_of t) = t).
  { intros t listed.
    destruct (catalogue_token _ _ _ listed) as [item [_ [valid ->]]].
    split; [exact valid | reflexivity]. }
  assert (distinct : NoDup (map currency out)).
  { unfold out, processTokenData.
    eapply Permutation_NoDup.
    - apply Permutation_map. symmetry. apply JS_facts.sort_perm.
    - rewrite Utils_facts.values_currencies
        by apply Utils_facts.build_well_keyed.
      apply Utils_facts.build_well_keyed. }
  assert (sorted : Sorted (JS.in_order (by_currency localeCompare)) out).
  { unfold out, processTokenData. apply JS_facts.sort_sorted.
    intros a b. unfold by_currency. apply total. }
  unfold processTokenData at 1.
  rewrite (build_distinct out [] sound distinct) by (intros t _ []).
  simpl. unfold map_values. rewrite map_map. simpl. rewrite map_id.
  now apply Sort_facts.sort_sorted_list.
Qed.

Lemma catalogue_tokens_are_valid_example :
  (exists item,
      In item example_records /\ Raw.currency item = "ETH"
      /\ Raw.price item = JS.of_Z 60)
  /\ JS.gt (JS.of_Z 60) (JS.of_Z 0) = true
  /\ icon_url "ETH" = icon_url "ETH".
Proof.
  apply (catalogue_tokens_are_valid ordinal_compare example_records
           {| currency := "ETH"; price := JS.of_Z 60; icon := icon_url "ETH" |}).
  right. left. reflexivity.
Defined.

Lemma catalogue_read_again_example :
  processTokenData ordinal_compare
    (map Feed.record_of (processTokenData ordinal_compare example_records))
  = processTokenData ordinal_compare example_records.
Proof.
  apply (catalogue_read_again ordinal_compare
           Utils_facts.ordinal_compare_total example_records).
Defined.

End Catalogue_facts.

(** * More about the wallet page *)

Module WalletPage_facts.
Import Wallet.
Local Open Scope string_scope.

Lemma by_priority_trans (a b c : WalletBalance) :
  by_priority a b <= 0 -> by_priority b c <= 0 -> by_priority a c <= 0.
Proof. unfold by_priority. lia. Qed.

Lemma by_priority_total (a b : WalletBalance) :
  0 < by_priority a b -> by_priority b a <= 0.
Proof. unfold by_priority. lia. Qed.

Lemma ties_same_priority (x b : WalletBalance) :
  JS.ties by_priority x b
  = Z.eqb (getPriority (blockchain b)) (getPriority (blockchain x)).
Proof.
  unfold JS.ties, by_priority.
  destruct (Z.eqb_spec (getPriority (blockchain b)) (getPriority (blockchain x)))
    as [same | diff].
  - rewrite same, Z.sub_diag. reflexivity.
  - apply andb_false_iff.
    destruct (Z.leb_spec (getPriority (blockchain b) - getPriority (blockchain x)) 0);
      [right; apply Z.leb_gt; lia | now left].
Qed.

(** X5.  The balances on blockchains of one priority come out of
    [sortedBalances] in the order they have in the input ([Zilliqa] and
    [Neo] share the priority 20). *)
Theorem sortedBalances_stable (chain : string)
  (balances : list WalletBalance) :
  filter (fun b => Z.eqb (getPriority (blockchain b)) (getPriority chain))
    (sortedBalances balances)
  = filter (fun b => Z.eqb (getPriority (blockchain b)) (getPriority chain))
      (filter supported_and_positive balances).
Proof.
  set (x := {| currency := ""; amount := JS.NaN; blockchain := chain |}).
  pose proof (JS_facts.sort_stable by_priority by_priority_trans x
                (filter supported_and_positive balances)) as stable.
  unfold sortedBalances.
  rewrite !(filter_ext _ _ (ties_same_priority x)) in stable.
  exact stable.
Qed.

(** X6.  Selecting and sorting what [sortedBalances] returns gives it
    back. *)
Theorem sortedBalances_idempotent (balances : list WalletBalance) :
  sortedBalances (sortedBalances balances) = sortedBalances balances.
Proof.
  unfold sortedBalances at 1.
  rewrite Sort_facts.filter_all.
  - apply Sort_facts.sort_sorted_list.
    apply JS_facts.sort_sorted. exact by_priority_total.
  - intros b kept. unfold sortedBalances in kept.
    apply Sort_facts.sort_In in kept.
    now apply filter_In in kept.
Qed.

Section Rows.

Variable Number_toString : JS.number -> string.
Variable prices : string -> option JS.number.

#[local] Abbreviation rows := (WalletPage.rows Number_toString prices).
#[local] Abbreviation row := (WalletPage.row Number_toString prices).




(** The page has a row for each balance selected, in the same order. *)
Lemma rows_length (balances : list WalletBalance) :
  List.length (rows balances)
  = List.length (filter supported_and_positive balances).
Proof.
  unfold WalletPage.rows, sortedBalances. rewrite length_map.
  apply Permutation_length, JS_facts.sort_perm.
Qed.

End Rows.


End WalletPage_facts.

(** * More about the swap form *)

Module Form_facts.
Import Utils App.
Local Open Scope string_scope.

(** The cases of a handler: each test passed or not, each token there or
    not. *)
Ltac handler_cases :=
  repeat match goal with
         | |- context [if ?b then _ else _] => destruct b eqn:?; simpl
         | |- context [match ?x with Some _ => _ | None => _ end] =>
             destruct x eqn:?; simpl
         | |- context [match ?x with O => _ | S _ => _ end] =>
             destruct x eqn:?; simpl
         end.

Section Platform.

Variable localeCompare : string -> string -> Z.
Variable Number_toString : JS.number -> string.

#[local] Abbreviation recompute := (recompute Number_toString).
#[local] Abbreviation render := (render Number_toString).
#[local] Abbreviation handle := (handle localeCompare).
#[local] Abbreviation step := (step localeCompare Number_toString).
#[local] Abbreviation run := (run localeCompare Number_toString).

(** ** What the effect reads and what it writes *)

Lemma recompute_keeps_view (balance : JS.number) (s : State) :
  tokens (recompute balance s) = tokens s /\
  isFromModalOpen (recompute balance s) = isFromModalOpen s /\
  isToModalOpen (recompute balance s) = isToModalOpen s /\
  searchTerm (recompute balance s) = searchTerm s /\
  isLoading (recompute balance s) = isLoading s.
Proof.
  unfold App.recompute.
  destruct s as [? [?|] [?|] ? ? ? ? ? ? ? ? ?]; simpl;
    handler_cases; repeat split.
Qed.

Lemma render_keeps_view (before after : State) :
  tokens (render before after) = tokens after /\
  isFromModalOpen (render before after) = isFromModalOpen after /\
  isToModalOpen (render before after) = isToModalOpen after /\
  searchTerm (render before after) = searchTerm after /\
  isLoading (render before after) = isLoading after.
Proof.
  unfold App.render. destruct (same_dependencies before after).
  - repeat split.
  - apply recompute_keeps_view.
Qed.

(** X12.  The effect overwrites the error and the quote whatever they
    were: its result does not depend on them, and running it again changes
    nothing. *)
Theorem recompute_overwrites (balance : JS.number) (s : State)
  (e a : string) :
  recompute balance (setError e (setToAmount a s)) = recompute balance s
  /\ recompute balance (recompute balance s) = recompute balance s.
Proof.
  split; [|apply App_facts.recompute_idempotent].
  unfold App.recompute.
  destruct s as [? [?|] [?|] ? ? ? ? ? ? ? ? ?]; simpl;
    handler_cases; reflexivity.
Qed.

(** ** Exchanging the two sides *)

(** X8.  [FlipSides] changes nothing during a swap.  Otherwise it
    exchanges the two tokens and makes the quote the amount entered; a
    second one puts the tokens back. *)
Theorem flip_sides (s : State) :
  (isSwapping s = true -> step s FlipSides = s)
  /\ (isSwapping s = false ->
      fromToken (step s FlipSides) = toToken s
      /\ toToken (step s FlipSides) = fromToken s
      /\ fromAmount (step s FlipSides) = toAmount s
      /\ fromToken (step (step s FlipSides) FlipSides) = fromToken s
      /\ toToken (step (step s FlipSides) FlipSides) = toToken s).
Proof.
  split.
  - intros swapping. unfold App.step. simpl. unfold handleSwapTokens.
    rewrite swapping. apply App_facts.render_unchanged.
  - intros idle.
    assert (once : forall s0, isSwapping s0 = false ->
              fromToken (step s0 FlipSides) = toToken s0
              /\ toToken (step s0 FlipSides) = fromToken s0
              /\ fromAmount (step s0 FlipSides) = toAmount s0
              /\ isSwapping (step s0 FlipSides) = false).
    { intros s0 idle0. unfold App.step.
      destruct (App_facts.render_keeps Number_toString s0 (handle FlipSides s0))
        as [-> [-> [-> [-> _]]]].
      simpl. unfold handleSwapTokens. rewrite idle0. simpl. auto. }
    destruct (once s idle) as [from [to [amount idle']]].
    destruct (once _ idle') as [from' [to' _]].
    repeat split; congruence.
Qed.

(** ** The timer *)

Lemma one_swap_same (s s' : State) :
  isSwapping s' = isSwapping s -> timers s' = timers s ->
  Form.one_swap s -> Form.one_swap s'.
Proof. unfold Form.one_swap. now intros -> ->. Qed.

Lemma handle_one_swap (e : Event) (s : State) :
  Form.one_swap s -> Form.one_swap (handle e s).
Proof.
  intros inv.
  destruct e as [data | | text | tok | tok | | | | | | | | term]; simpl;
    try (apply (one_swap_same s); [| | exact inv];
         unfold prices_loaded, prices_failed, handleFromAmountChange,
           handleSelectFromToken, handleSelectToToken, handleSwapTokens;
         handler_cases; simpl; congruence).
  - destruct (isButtonDisabled s) eqn:disabled; [exact inv|].
    apply App_facts.button_enabled in disabled.
    destruct disabled as [_ [_ [_ idle]]].
    destruct inv as [[_ none] | [swapping _]]; [|congruence].
    right. simpl. now rewrite none.
  - destruct (timers s) as [|n] eqn:pending; [exact inv|].
    destruct inv as [[_ none] | [_ one]]; [congruence|].
    left. simpl. split; [reflexivity|]. congruence.
Qed.

(** X9.  After every sequence of events from the initial state at most
    one timer is pending, and [isSwapping] holds exactly while one is: a
    click during a swap starts no second timer. *)
Theorem one_swap_at_a_time (events : list Event) :
  (isSwapping (run initial events) = false
   /\ timers (run initial events) = O)
  \/ (isSwapping (run initial events) = true
      /\ timers (run initial events) = 1%nat).
Proof.
  change (Form.one_swap (run initial events)).
  assert (start : Form.one_swap initial) by (left; split; reflexivity).
  revert start. generalize initial as s.
  induction events as [|e events IH]; simpl; intros s inv.
  - exact inv.
  - apply IH. apply (handle_one_swap e) in inv.
    unfold App.step, Form.one_swap in *.
    destruct (App_facts.render_keeps Number_toString s (handle e s))
      as [_ [_ [_ [-> ->]]]].
    exact inv.
Qed.


(** ** What is shown has a ground *)

Lemma same_dependencies_fields (s s' : State) :
  same_dependencies s s' = true ->
  fromAmount s = fromAmount s'
  /\ same_token (fromToken s) (fromToken s') = true
  /\ same_token (toToken s) (toToken s') = true.
Proof.
  unfold same_dependencies. intros same.
  apply andb_true_iff in same. destruct same as [same to].
  apply andb_true_iff in same. destruct same as [amount from].
  apply String.eqb_eq in amount. auto.
Qed.

Lemma same_token_selected (a b : option Token) :
  same_token a b = true -> a <> None -> b <> None.
Proof. destruct a, b; simpl; congruence. Qed.

Lemma same_token_currency (f : Token) (b : option Token) :
  same_token (Some f) b = true ->
  exists f', b = Some f' /\ insufficient f' = insufficient f.
Proof.
  destruct b as [f'|]; simpl; [|discriminate]. intros same.
  apply andb_true_iff in same. destruct same as [same _].
  apply andb_true_iff in same. destruct same as [same _].
  apply String.eqb_eq in same. exists f'. unfold insufficient.
  now rewrite same.
Qed.

Lemma handle_toAmount (e : Event) (s : State) :
  toAmount (handle e s) = toAmount s \/ toAmount (handle e s) = "".
Proof.
  destruct e; simpl;
    unfold prices_loaded, prices_failed, handleFromAmountChange,
      handleSelectFromToken, handleSelectToToken, handleSwapTokens;
    handler_cases; auto.
Qed.

Lemma handle_error (e : Event) (s : State) :
  error (handle e s) = error s \/ error (handle e s) = fetch_failed.
Proof.
  destruct e; simpl;
    unfold prices_loaded, prices_failed, handleFromAmountChange,
      handleSelectFromToken, handleSelectToToken, handleSwapTokens;
    handler_cases; auto.
Qed.

Lemma recompute_quote_grounded (balance : JS.number) (s : State) :
  Form.quote_grounded (recompute balance s).
Proof.
  unfold Form.quote_grounded.
  rewrite App_facts.recompute_toAmount.
  destruct (App_facts.recompute_keeps Number_toString balance s)
    as [_ [-> [-> [-> _]]]].
  destruct (fromToken s) as [f|], (toToken s) as [t|]; auto.
  destruct (JS.gt _ _ && _ && _) eqn:test; [|auto].
  apply andb_true_iff in test. destruct test as [test _].
  apply andb_true_iff in test. destruct test as [positive _].
  right. repeat split; [exact positive | discriminate | discriminate].
Qed.

Lemma recompute_error_grounded (s : State) :
  Form.error_grounded (recompute MOCK_BALANCE s).
Proof.
  unfold Form.error_grounded.
  rewrite App_facts.recompute_error.
  destruct (App_facts.recompute_keeps Number_toString MOCK_BALANCE s)
    as [_ [-> [_ [-> _]]]].
  destruct (fromToken s) as [f|]; auto.
  destruct (JS.gt _ MOCK_BALANCE) eqn:over; auto.
  right. right. exists f. auto.
Qed.

Lemma step_quote_grounded (e : Event) (s : State) :
  Form.quote_grounded s -> Form.quote_grounded (step s e).
Proof.
  intros inv. unfold App.step, App.render.
  destruct (same_dependencies s (handle e s)) eqn:same;
    [|apply recompute_quote_grounded].
  apply same_dependencies_fields in same.
  destruct same as [amount [from to]].
  unfold Form.quote_grounded in *.
  destruct (handle_toAmount e s) as [kept | cleared]; [|now left].
  rewrite kept, <- amount.
  destruct inv as [none | [positive [f t]]]; [now left | right].
  eauto using same_token_selected.
Qed.

Lemma step_error_grounded (e : Event) (s : State) :
  Form.error_grounded s -> Form.error_grounded (step s e).
Proof.
  intros inv. unfold App.step, App.render.
  destruct (same_dependencies s (handle e s)) eqn:same;
    [|apply recompute_error_grounded].
  apply same_dependencies_fields in same.
  destruct same as [amount [from _]].
  unfold Form.error_grounded in *.
  destruct (handle_error e s) as [kept | failed]; [|auto].
  rewrite kept, <- amount.
  destruct inv as [none | [failed | [f [selected [shown over]]]]]; auto.
  right. right. rewrite selected in from.
  destruct (same_token_currency f _ from) as [f' [selected' same]].
  exists f'. rewrite same. auto.
Qed.

(** X10.  After every sequence of events from the initial state, a quote
    is shown only when the amount entered parses to more than 0 and both
    tokens are selected: the quote never outlives what it was computed
    from. *)
Theorem quote_has_ground (events : list Event) :
  toAmount (run initial events) = ""
  \/ (JS.gt (JS.parseFloat (fromAmount (run initial events))) (JS.of_Z 0)
      = true
      /\ fromToken (run initial events) <> None
      /\ toToken (run initial events) <> None).
Proof.
  change (Form.quote_grounded (run initial events)).
  assert (start : Form.quote_grounded initial) by now left.
  revert start. generalize initial as s.
  induction events as [|e events IH]; simpl; intros s inv.
  - exact inv.
  - now apply IH, step_quote_grounded.
Qed.

(** X11.  After every sequence of events from the initial state, the
    error shown is empty, or the failure to load the prices, or the lack
    of balance for the from-token now selected with an amount that parses
    to more than [MOCK_BALANCE]. *)
Theorem error_has_ground (events : list Event) :
  error (run initial events) = ""
  \/ error (run initial events) = fetch_failed
  \/ (exists f,
         fromToken (run initial events) = Some f
         /\ error (run initial events) = insufficient f
         /\ JS.gt (JS.parseFloat (fromAmount (run initial events)))
              MOCK_BALANCE = true).
Proof.
  change (Form.error_grounded (run initial events)).
  assert (start : Form.error_grounded initial) by now left.
  revert start. generalize initial as s.
  induction events as [|e events IH]; simpl; intros s inv.
  - exact inv.
  - now apply IH, step_error_grounded.
Qed.

(** ** Loading the prices *)

Lemma find_first (p : Token -> bool) (l : list Token) :
  find p l = hd_error (filter p l).
Proof.
  induction l as [|t l IH]; simpl; [reflexivity|].
  now destruct (p t).
Qed.

Lemma find_currency_catalogue (c : string) (data : list Raw.RawTokenData)
  (d : Raw.RawTokenData) :
  find_currency c (processTokenData localeCompare data) =
  match records_of c data with
  | [] => None
  | _ :: _ => Some (token_of (last (records_of c data) d))
  end.
Proof.
  unfold find_currency. rewrite find_first.
  change (filter (fun token => String.eqb (currency token) c)
            (processTokenData localeCompare data))
    with (tokens_of c (processTokenData localeCompare data)).
  rewrite (Catalogue_facts.catalogue_tokens_of localeCompare data c d).
  now destruct (records_of c data).
Qed.

(** X13.  When the prices arrive the form holds the catalogue, the
    loading flag is reset, and the two sides take their defaults: the
    token of the last valid [ETH] record on the from-side and of the last
    valid [USDC] record on the to-side, or no token when the feed has no
    such record. *)
Theorem prices_loaded_defaults (data : list Raw.RawTokenData) (s : State)
  (d : Raw.RawTokenData) :
  tokens (step s (PricesLoaded data)) = processTokenData localeCompare data
  /\ isLoading (step s (PricesLoaded data)) = false
  /\ fromToken (step s (PricesLoaded data)) =
     match records_of "ETH" data with
     | [] => None
     | _ :: _ => Some (token_of (last (records_of "ETH" data) d))
     end
  /\ toToken (step s (PricesLoaded data)) =
     match records_of "USDC" data with
     | [] => None
     | _ :: _ => Some (token_of (last (records_of "USDC" data) d))
     end.
Proof.
  unfold App.step.
  destruct (render_keeps_view s (handle (PricesLoaded data) s))
    as [-> [_ [_ [_ ->]]]].
  destruct (App_facts.render_keeps Number_toString s
              (handle (PricesLoaded data) s)) as [-> [-> _]].
  simpl. rewrite !find_currency_catalogue with (d := d).
  repeat split.
Qed.

(** ** Selecting from the list a selector shows *)

Section Selector.

Variable toLowerCase : string -> string.

(** X14.  A token that the selector of one side lists, whatever is
    searched for, is a token of the catalogue of another currency than the
    opposite side: selecting it sets that side, leaves the opposite side
    as it is, closes the selector and clears the search. *)
Theorem select_listed_token (s : State) (term : string) (t : Token) :
  (In t (TokenSelector.filteredTokens toLowerCase
           (TokenSelector.from_selector_tokens s) term) ->
   In t (tokens s)
   /\ fromToken (step s (SelectFromToken t)) = Some t
   /\ toToken (step s (SelectFromToken t)) = toToken s
   /\ isFromModalOpen (step s (SelectFromToken t)) = false
   /\ searchTerm (step s (SelectFromToken t)) = "")
  /\ (In t (TokenSelector.filteredTokens toLowerCase
              (TokenSelector.to_selector_tokens s) term) ->
      In t (tokens s)
      /\ toToken (step s (SelectToToken t)) = Some t
      /\ fromToken (step s (SelectToToken t)) = fromToken s
      /\ isToModalOpen (step s (SelectToToken t)) = false
      /\ searchTerm (step s (SelectToToken t)) = "").
Proof.
  unfold TokenSelector.filteredTokens, TokenSelector.from_selector_tokens,
    TokenSelector.to_selector_tokens.
  split; intros listed;
    apply filter_In in listed; destruct listed as [listed _];
    apply filter_In in listed; destruct listed as [here other];
    (split; [exact here|]); unfold App.step.
  - destruct (render_keeps_view s (handle (SelectFromToken t) s))
      as [_ [-> [_ [-> _]]]].
    destruct (App_facts.render_keeps Number_toString s
                (handle (SelectFromToken t) s)) as [-> [-> _]].
    simpl. unfold handleSelectFromToken.
    unfold TokenSelector.other_currency in other.
    destruct (toToken s) as [o|] eqn:opposite; simpl; [|auto].
    rewrite String.eqb_sym. apply negb_true_iff in other.
    rewrite other. simpl. auto.
  - destruct (render_keeps_view s (handle (SelectToToken t) s))
      as [_ [_ [-> [-> _]]]].
    destruct (App_facts.render_keeps Number_toString s
                (handle (SelectToToken t) s)) as [-> [-> _]].
    simpl. unfold handleSelectToToken.
    unfold TokenSelector.other_currency in other.
    destruct (fromToken s) as [o|] eqn:opposite; simpl; [|auto].
    rewrite String.eqb_sym. apply negb_true_iff in other.
    rewrite other. simpl. auto.
Qed.

End Selector.

End Platform.

Lemma flip_sides_example :
  fromToken (App.step ordinal_compare toString_stand_in (eth_to_usdc "1")
               FlipSides) = Some USDC
  /\ toToken (App.step ordinal_compare toString_stand_in (eth_to_usdc "1")
                FlipSides) = Some ETH
  /\ fromAmount (App.step ordinal_compare toString_stand_in (eth_to_usdc "1")
                   FlipSides) = ""
  /\ fromToken (App.step ordinal_compare toString_stand_in
                  (App.step ordinal_compare toString_stand_in
                     (eth_to_usdc "1") FlipSides) FlipSides) = Some ETH
  /\ toToken (App.step ordinal_compare toString_stand_in
                (App.step ordinal_compare toString_stand_in
                   (eth_to_usdc "1") FlipSides) FlipSides) = Some USDC.
Proof.
  apply (proj2 (flip_sides ordinal_compare toString_stand_in
                  (eth_to_usdc "1"))).
  reflexivity.
Defined.

Lemma select_listed_token_example :
  In ETH [ETH; USDC]
  /\ fromToken (App.step ordinal_compare toString_stand_in (eth_to_usdc "1")
                  (SelectFromToken ETH)) = Some ETH
  /\ toToken (App.step ordinal_compare toString_stand_in (eth_to_usdc "1")
                (SelectFromToken ETH)) = Some USDC
  /\ isFromModalOpen (App.step ordinal_compare toString_stand_in
                        (eth_to_usdc "1") (SelectFromToken ETH)) = false
  /\ searchTerm (App.step ordinal_compare toString_stand_in
                   (eth_to_usdc "1") (SelectFromToken ETH)) = "".
Proof.
  apply (proj1 (select_listed_token ordinal_compare toString_stand_in
                  TokenSelector.lower_letters (eth_to_usdc "1") "Et" ETH)).
  left. reflexivity.
Defined.

End Form_facts.

(** * The search of the token selector *)

Module TokenSelector_facts.
Import Utils TokenSelector.
Local Open Scope string_scope.

Lemma append_assoc (a b c : string) : (a ++ b) ++ c = a ++ b ++ c.
Proof. induction a as [|x a IH]; simpl; [reflexivity | now rewrite IH]. Qed.

Lemma append_empty (a : string) : a ++ "" = a.
Proof. induction a as [|x a IH]; simpl; [reflexivity | now rewrite IH]. Qed.

Lemma strip_prefix_spec (p s r : string) :
  JS.strip_prefix p s = Some r <-> s = p ++ r.
Proof.
  revert s. induction p as [|a p IH]; intros s; simpl.
  - split; congruence.
  - destruct s as [|b s].
    + split; discriminate.
    + destruct (Ascii.eqb_spec a b) as [-> | diff].
      * rewrite IH. split; congruence.
      * split; [discriminate | congruence].
Qed.

Lemma includes_head (s sub r : string) :
  JS.strip_prefix sub s = Some r -> includes s sub = true.
Proof. intros head. destruct s; simpl; now rewrite head. Qed.

(** [includes] finds [sub] exactly when [s] has it between two parts. *)
Lemma includes_spec (s sub : string) :
  includes s sub = true <-> exists pre post, s = pre ++ sub ++ post.
Proof.
  split.
  - induction s as [|c s IH]; simpl.
    + destruct (JS.strip_prefix sub "") as [r|] eqn:head; [|discriminate].
      intros _. apply strip_prefix_spec in head. now exists "", r.
    + destruct (JS.strip_prefix sub (String c s)) as [r|] eqn:head.
      * intros _. apply strip_prefix_spec in head. now exists "", r.
      * intros later. destruct (IH later) as [pre [post ->]].
        now exists (String c pre), post.
  - intros [pre [post ->]]. induction pre as [|c pre IH]; simpl.
    + apply (includes_head _ _ post). now apply strip_prefix_spec.
    + destruct (JS.strip_prefix sub (String c (pre ++ sub ++ post)));
        [reflexivity | exact IH].
Qed.

Lemma includes_refl (s : string) : includes s s = true.
Proof.
  apply includes_spec. exists "", "". simpl. now rewrite append_empty.
Qed.

Lemma includes_empty (s : string) : includes s "" = true.
Proof. apply includes_spec. now exists "", s. Qed.

Lemma includes_trans (s b a : string) :
  includes s b = true -> includes b a = true -> includes s a = true.
Proof.
  rewrite !includes_spec. intros [p1 [q1 ->]] [p2 [q2 ->]].
  exists (p1 ++ p2), (q2 ++ q1). now rewrite !append_assoc.
Qed.

Section Search.

Variable toLowerCase : string -> string.

#[local] Abbreviation filteredTokens := (filteredTokens toLowerCase).
#[local] Abbreviation matches := (matches toLowerCase).

(** X15.  A search term whose lower-case form contains the lower-case
    form of another one lists what is left of the other one's list under
    it: typing on only takes tokens away, and keeps the order. *)
Theorem filteredTokens_narrows (tokens : list Token) (short long : string) :
  includes (toLowerCase long) (toLowerCase short) = true ->
  filteredTokens tokens long = filteredTokens (filteredTokens tokens short) long
  /\ incl (filteredTokens tokens long) (filteredTokens tokens short).
Proof.
  intros contains.
  assert (narrower : forall t, matches long t = true -> matches short t = true).
  { intros t found. unfold TokenSelector.matches in *.
    eapply includes_trans; eassumption. }
  split.
  - unfold TokenSelector.filteredTokens.
    induction tokens as [|t tokens IH]; simpl; [reflexivity|].
    destruct (matches short t) eqn:first; simpl.
    + destruct (matches long t); now rewrite IH.
    + destruct (matches long t) eqn:second; [|exact IH].
      rewrite (narrower t second) in first. discriminate.
  - intros t. unfold TokenSelector.filteredTokens. rewrite !filter_In.
    intros [here found]. auto.
Qed.

(** X16.  A token of the list is found by its own currency, written in
    any case that the case mapping takes to the same text; and a search
    term whose lower-case form is empty lists every token. *)
Theorem filteredTokens_finds (tokens : list Token) (term : string) :
  (forall t, In t tokens ->
             toLowerCase term = toLowerCase (currency t) ->
             In t (filteredTokens tokens term))
  /\ (toLowerCase term = "" -> filteredTokens tokens term = tokens).
Proof.
  unfold TokenSelector.filteredTokens, TokenSelector.matches. split.
  - intros t here same. apply filter_In. split; [exact here|].
    rewrite same. apply includes_refl.
  - intros empty. apply Sort_facts.filter_all. intros t _.
    rewrite empty. apply includes_empty.
Qed.

End Search.

Lemma filteredTokens_narrows_example :
  TokenSelector.filteredTokens lower_letters [App.ETH; App.USDC] "ET"
  = TokenSelector.filteredTokens lower_letters
      (TokenSelector.filteredTokens lower_letters [App.ETH; App.USDC] "e") "ET"
  /\ incl (TokenSelector.filteredTokens lower_letters [App.ETH; App.USDC] "ET")
          (TokenSelector.filteredTokens lower_letters [App.ETH; App.USDC] "e").
Proof.
  apply (filteredTokens_narrows lower_letters [App.ETH; App.USDC] "e" "ET").
  reflexivity.
Defined.

Lemma filteredTokens_finds_example :
  In App.USDC
     (TokenSelector.filteredTokens lower_letters [App.ETH; App.USDC] "usdc")
  /\ TokenSelector.filteredTokens lower_letters [App.ETH; App.USDC] ""
     = [App.ETH; App.USDC].
Proof.
  pose proof (filteredTokens_finds lower_letters [App.ETH; App.USDC])
    as finds.
  split.
  - apply (proj1 (finds "usdc") App.USDC).
    + right. left. reflexivity.
    + reflexivity.
  - apply (proj2 (finds "")). reflexivity.
Defined.

End TokenSelector_facts.

(** * The two readings of the amount: [Number] and [parseFloat] *)

Module Parsing_facts.
Import Text.
Local Open Scope string_scope.

(** The white space characters, one by one. *)
Ltac white_space c H :=
  destruct c as [[] [] [] [] [] [] [] []]; try discriminate H.

Ltac each_character c := destruct c as [[] [] [] [] [] [] [] []].

Lemma ws_not_digit (radix : N) (c : ascii) :
  JS.isWhiteSpace c = true -> JS.digit radix c = None.
Proof. intros ws. white_space c ws; reflexivity. Qed.

Lemma trimEnd_split (s : string) :
  exists w, s = JS.trimEnd s ++ w /\ ws_headed w.
Proof.
  induction s as [|c s [w [split headed]]]; simpl.
  - now exists "".
  - destruct (JS.trimEnd s) as [|c' r] eqn:trimmed.
    + simpl in split. subst w.
      destruct (JS.isWhiteSpace c) eqn:ws.
      * exists (String c s). now split.
      * exists s. now split.
    + exists w. split; [|exact headed]. simpl. now rewrite split at 1.
Qed.

Lemma digits_app (radix : N) (s w : string) (acc : N) (count : nat) :
  ws_headed w ->
  JS.digits radix (s ++ w) acc count =
  let '(a, c, r) := JS.digits radix s acc count in (a, c, r ++ w).
Proof.
  intros headed. revert acc count.
  induction s as [|c s IH]; simpl; intros acc count.
  - destruct w as [|c w]; simpl; [reflexivity|].
    now rewrite (ws_not_digit radix c headed).
  - destruct (JS.digit radix c); [apply IH | reflexivity].
Qed.

Lemma strip_prefix_app (p s w : string) :
  no_ws p = true -> ws_headed w ->
  JS.strip_prefix p (s ++ w) =
  match JS.strip_prefix p s with
  | Some r => Some (r ++ w)
  | None => None
  end.
Proof.
  intros plain headed. revert s.
  induction p as [|a p IH]; simpl; intros s; [reflexivity|].
  simpl in plain. apply andb_true_iff in plain. destruct plain as [black plain].
  destruct s as [|b s]; simpl.
  - destruct w as [|c w]; [reflexivity|]. simpl in headed.
    destruct (Ascii.eqb_spec a c) as [-> | diff]; [|reflexivity].
    rewrite headed in black. discriminate.
  - destruct (Ascii.eqb a b); [now apply IH | reflexivity].
Qed.

Lemma exponentPart_app (s w : string) :
  ws_headed w ->
  JS.exponentPart (s ++ w) =
  let '(e, r) := JS.exponentPart s in (e, r ++ w).
Proof.
  intros headed. destruct s as [|c s].
  - destruct w as [|c w]; [reflexivity|]. simpl in headed |- *.
    white_space c headed; reflexivity.
  - simpl. destruct (Ascii.eqb c "e" || Ascii.eqb c "E"); [|reflexivity].
    destruct s as [|c' s].
    + destruct w as [|c' w]; [reflexivity|]. simpl in headed |- *.
      white_space c' headed; reflexivity.
    + simpl.
      each_character c'; simpl;
        try rewrite (digits_app 10 s w) by exact headed;
        repeat match goal with
               | |- context [JS.digits ?r ?t ?a ?n] =>
                   destruct (JS.digits r t a n) as [[? [|?]] ?]
               end; reflexivity.
Qed.

Lemma strUnsigned_app (s w : string) (v : JS.number) (r : string) :
  ws_headed w ->
  JS.strUnsignedDecimalLiteral s = Some (v, r) ->
  JS.strUnsignedDecimalLiteral (s ++ w) = Some (v, r ++ w).
Proof.
  intros headed. unfold JS.strUnsignedDecimalLiteral.
  rewrite (strip_prefix_app "Infinity" s w eq_refl headed).
  destruct (JS.strip_prefix "Infinity" s) as [r0|].
  { now intros [= <- <-]. }
  rewrite (digits_app 10 s w) by exact headed.
  destruct (JS.digits 10 s 0 0) as [[ip ni] r1].
  assert (plain : forall t,
            match ni with
            | O => None
            | S _ =>
                let '(e, r4) := JS.exponentPart t in
                Some (JS.decimalValue ip e, r4)
            end = Some (v, r) ->
            match ni with
            | O => None
            | S _ =>
                let '(e, r4) := JS.exponentPart (t ++ w) in
                Some (JS.decimalValue ip e, r4)
            end = Some (v, r ++ w)).
  { intros t. destruct ni; [discriminate|].
    rewrite (exponentPart_app t w headed).
    destruct (JS.exponentPart t) as [e r4]. now intros [= <- <-]. }
  destruct r1 as [|c r1].
  - intros parsed. specialize (plain "" parsed). simpl in plain |- *.
    destruct w as [|c w]; [exact plain|]. simpl in headed.
    white_space c headed; exact plain.
  - each_character c;
      try (intros parsed; cbn [String.append]; cbv beta iota in parsed |- *;
           match type of parsed with
           | context [JS.exponentPart ?t] => exact (plain t parsed)
           end).
    simpl. rewrite (digits_app 10 r1 w) by exact headed.
    destruct (JS.digits 10 r1 ip 0) as [[m nf] r3].
    rewrite (exponentPart_app r3 w headed).
    destruct (JS.exponentPart r3) as [e r4].
    destruct ni, nf; try discriminate; now intros [= <- <-].
Qed.

Lemma strDecimal_app (s w : string) (v : JS.number) (r : string) :
  ws_headed w ->
  JS.strDecimalLiteral s = Some (v, r) ->
  JS.strDecimalLiteral (s ++ w) = Some (v, r ++ w).
Proof.
  intros headed. destruct s as [|c s].
  - discriminate.
  - unfold JS.strDecimalLiteral.
    each_character c; cbn [String.append]; cbv beta iota; intros parsed;
      first
        [ exact (strUnsigned_app _ w v r headed parsed)
        | destruct (JS.strUnsignedDecimalLiteral s) as [[v0 r0]|] eqn:unsigned;
          [|discriminate];
          rewrite (strUnsigned_app s w v0 r0 headed unsigned);
          injection parsed as <- <-; reflexivity ].
Qed.

(** A binary, octal or hexadecimal literal starts with [0] and a letter:
    [parseFloat] reads the [0] and stops. *)
Lemma nonDecimal_parseFloat (t w : string) (v : JS.number) :
  JS.nonDecimalIntegerLiteral t = Some v ->
  (exists rest, JS.strDecimalLiteral (t ++ w) = Some (JS.of_Z 0, rest))
  /\ JS.ge v (JS.of_Z 0) = true.
Proof.
  unfold JS.nonDecimalIntegerLiteral.
  destruct t as [|z t]; [discriminate|].
  destruct t as [|c t]; [each_character z; discriminate|].
  each_character z; try discriminate.
  each_character c; try discriminate; simpl;
    (destruct (JS.digits _ t 0 0) as [[n [|k]] [|? ?]]; try discriminate;
     intros [= <-]; split;
     [ eexists; reflexivity
     | apply JS_facts.le_finite; unfold Qle; simpl; lia ]).
Qed.

Lemma blank_parseFloat (w : string) :
  ws_headed w -> JS.strDecimalLiteral w = None.
Proof.
  destruct w as [|c w]; [reflexivity|]. simpl. intros headed.
  white_space c headed; reflexivity.
Qed.

(** How [parseFloat] reads a text, beside how [Number] reads it. *)
Lemma two_readings (text : string) :
  (JS.trim text = "" /\ JS.parseFloat text = JS.NaN)
  \/ ((exists v, JS.nonDecimalIntegerLiteral (JS.trim text) = Some v
                 /\ JS.Number text = v)
      /\ JS.parseFloat text = JS.of_Z 0)
  \/ JS.Number text = JS.NaN
  \/ JS.parseFloat text = JS.Number text.
Proof.
  unfold JS.parseFloat, JS.Number, JS.trim.
  destruct (trimEnd_split (JS.trimStart text)) as [w [split headed]].
  destruct (JS.trimEnd (JS.trimStart text)) as [|c t] eqn:trimmed.
  - left. split; [reflexivity|]. simpl in split. rewrite split.
    now rewrite (blank_parseFloat w headed).
  - right. rewrite split.
    destruct (JS.nonDecimalIntegerLiteral (String c t)) as [v|] eqn:literal.
    + left. destruct (nonDecimal_parseFloat _ w _ literal) as [[rest ->] _].
      split; [now exists v | reflexivity].
    + right.
      destruct (JS.strDecimalLiteral (String c t)) as [[v [|c' r]]|] eqn:decimal;
        [|now left|now left].
      right. now rewrite (strDecimal_app _ w _ _ headed decimal).
Qed.

Section Platform.

Variable localeCompare : string -> string -> Z.
Variable Number_toString : JS.number -> string.

(** X17.  A text that the amount field accepts is stored as it is, and
    the effect never reads a negative amount from it: [parseFloat] reads
    [NaN] from a blank text, 0 from a binary, octal or hexadecimal literal,
    and from any other text the number that [Number] read when the text
    was accepted. *)
Theorem accepted_amount_reading (s : App.State) (text : string) :
  text = ""
  \/ (exists q, JS.Number text = JS.Finite q /\ (0 <= q)%Q)
  \/ JS.Number text = JS.Infinity false ->
  App.fromAmount
    (App.step localeCompare Number_toString s (App.ChangeFromAmount text))
  = text
  /\ JS.lt (JS.parseFloat text) (JS.of_Z 0) = false
  /\ ((JS.trim text = "" /\ JS.parseFloat text = JS.NaN)
      \/ ((exists v, JS.nonDecimalIntegerLiteral (JS.trim text) = Some v)
          /\ JS.parseFloat text = JS.of_Z 0)
      \/ JS.parseFloat text = JS.Number text).
Proof.
  intros accepted.
  assert (number : text = ""
                   \/ (JS.ge (JS.Number text) (JS.of_Z 0) = true
                       /\ JS.Number text <> JS.NaN)).
  { destruct accepted as [-> | [[q [-> bound]] | ->]]; [now left | |].
    - right. split; [|discriminate]. now apply JS_facts.le_finite.
    - right. split; [reflexivity | discriminate]. }
  split; [|].
  - unfold App.step.
    rewrite (proj1 (proj2 (proj2 (App_facts.render_keeps Number_toString _ _)))).
    simpl. unfold App.handleFromAmountChange.
    replace (String.eqb text ""
             || JS.ge (JS.Number text) (JS.of_Z 0)
                && negb (JS.isNaN (JS.Number text))) with true; [reflexivity|].
    symmetry. apply orb_true_iff. destruct accepted as [-> | finite].
    + now left.
    + right. now apply App_facts.ge_zero.
  - assert (reading :
      (JS.trim text = "" /\ JS.parseFloat text = JS.NaN)
      \/ ((exists v, JS.nonDecimalIntegerLiteral (JS.trim text) = Some v)
          /\ JS.parseFloat text = JS.of_Z 0)
      \/ (JS.parseFloat text = JS.Number text
          /\ JS.ge (JS.Number text) (JS.of_Z 0) = true)).
    { destruct (two_readings text)
        as [blank | [[[v [literal _]] zero] | [nan | same]]].
      - now left.
      - right. left. split; [now exists v | exact zero].
      - destruct number as [-> | [_ not_nan]]; [now left | contradiction].
      - destruct number as [-> | [bound _]]; [now left|].
        right. right. split; assumption. }
    split.
    + destruct reading as [[_ ->] | [[_ ->] | [-> bound]]];
        [reflexivity | reflexivity |].
      destruct (JS.Number text) as [| negative | q];
        [reflexivity | now destruct negative |].
      unfold JS.ge, JS.of_Z in bound. apply JS_facts.le_finite in bound.
      destruct (JS.lt (JS.Finite q) (JS.of_Z 0)) eqn:below; [|reflexivity].
      unfold JS.of_Z in below. apply JS_facts.lt_finite in below.
      destruct (Qlt_not_le _ _ below bound).
    + destruct reading as [blank | [literal | [same _]]]; auto.
Qed.

End Platform.

Lemma accepted_amount_reading_example :
  App.fromAmount
    (App.step Utils.ordinal_compare App.toString_stand_in
       (App.eth_to_usdc "") (App.ChangeFromAmount " 0x1F "))
  = " 0x1F "
  /\ JS.lt (JS.parseFloat " 0x1F ") (JS.of_Z 0) = false
  /\ ((JS.trim " 0x1F " = "" /\ JS.parseFloat " 0x1F " = JS.NaN)
      \/ ((exists v, JS.nonDecimalIntegerLiteral (JS.trim " 0x1F ") = Some v)
          /\ JS.parseFloat " 0x1F " = JS.of_Z 0)
      \/ JS.parseFloat " 0x1F " = JS.Number " 0x1F ").
Proof.
  apply (accepted_amount_reading Utils.ordinal_compare App.toString_stand_in
           (App.eth_to_usdc "") " 0x1F ").
  right. left. exists 31%Q. split; [reflexivity | discriminate].
Defined.

End Parsing_facts.
